(** * udsoncan.connections: the frame-reception engine

    A shallow embedding of [udsoncan/connections.py].  The two connection
    classes ([SocketConnection], [IsoTPConnection]) share one engine: a
    background thread that reads the transport and feeds a FIFO queue, and a
    caller thread that pops frames with a deadline.

    The program is concurrent, so it is modelled as a machine driven by a
    schedule: every event of a schedule lets one actor (the caller thread,
    the receive thread, the clock) make one move.  Properties are proved
    for every schedule, that is for every interleaving.

    Conventions:
    - time is counted in units; a timeout is a duration, a number of units
      that the platform can wait for (at most [threading.TIMEOUT_MAX]), or
      a negative number, which [Queue.get] refuses;
    - a method that never waits ([open], [close], [send], [is_open]) runs
      in one move; [wait_frame] and [empty_rxqueue] take one move per turn
      of their loop, and the receive thread one move for its loop test and
      one for each [recv] that completes;
    - the calls made on the socket are recorded in the connection, so that
      what reaches the transport can be read off a state;
    - the [logger] calls are left out, but for the one whose arguments can
      raise (line 28, in [send]). *)

From Stdlib Require Import String.
From Stdlib Require Import Strings.Byte.
From Stdlib Require Import List Bool Arith ZArith Lia.
Import ListNotations.

(** ** Python values *)

(** A [bytes] object. *)
Definition bytes := list byte.

(** What one call of [sock.recv] / [tpsock.recv] does: it returns an object
    ([None] is Python's [None]), raises [socket.timeout], or raises
    something else. *)
Inductive recv_result :=
| RecvData (data : option bytes)
| RecvTimeout
| RecvError.

(** Exceptions raised by the methods.  The text of a [TimeoutException] is
    built with ["... (timeout=%s sec)" % timeout]: it is kept as the fixed
    part of the text and the timeout it carries.  [ValueError] and
    [TypeError] come from the library calls the methods make on their
    arguments. *)
Inductive exn :=
| RuntimeError (msg : string)
| TimeoutException (msg : string) (timeout : nat)
| ValueError (msg : string)
| TypeError (msg : string).

Inductive result (A : Type) :=
| Return (a : A)
| Raise (e : exn).
Arguments Return {A} a.
Arguments Raise {A} e.

(** Values handed back to the caller of a public method. *)
Inductive value :=
| VNone
| VBytes (b : bytes)
| VBool (b : bool)
| VSelf.

Definition frame_value (frame : option bytes) : value :=
  match frame with
  | Some f => VBytes f
  | None => VNone
  end.

(** ** The connection object *)

(** [Stream] is [SocketConnection], [IsoTP] is [IsoTPConnection]. *)
Inductive variant := Stream | IsoTP.

(** The [threading.Thread] object created by the constructor, and where its
    target [rxthread_task] stands: not started, about to evaluate the
    [while] condition, inside the [recv] call, or returned. *)
Inductive thread := Unstarted | AtWhile | InRecv | Finished.

(** Calls made on the transport object ([self.sock] or [self.tpsock]).  A
    [recv] is recorded when it completes, with what it did. *)
Inductive sock_call :=
| Settimeout
| Bind
| SendCall (payload : bytes)
| RecvCall (r : recv_result)
| CloseCall.

Record conn := {
  kind : variant;
  rxqueue : list bytes;         (* queue.Queue(), head = oldest *)
  exit_requested : bool;
  opened : bool;
  rxthread : thread;
  bound : bool;                 (* tpsock.bound *)
  calls : list sock_call        (* calls on the transport, oldest first *)
}.

Definition set_rxqueue (q : list bytes) (c : conn) : conn :=
  {| kind := kind c; rxqueue := q; exit_requested := exit_requested c;
     opened := opened c; rxthread := rxthread c; bound := bound c;
     calls := calls c |}.

Definition set_exit_requested (b : bool) (c : conn) : conn :=
  {| kind := kind c; rxqueue := rxqueue c; exit_requested := b;
     opened := opened c; rxthread := rxthread c; bound := bound c;
     calls := calls c |}.

Definition set_opened (b : bool) (c : conn) : conn :=
  {| kind := kind c; rxqueue := rxqueue c; exit_requested := exit_requested c;
     opened := b; rxthread := rxthread c; bound := bound c;
     calls := calls c |}.

Definition set_rxthread (t : thread) (c : conn) : conn :=
  {| kind := kind c; rxqueue := rxqueue c; exit_requested := exit_requested c;
     opened := opened c; rxthread := t; bound := bound c;
     calls := calls c |}.

(** One call on the transport; [b] is the value of [bound] afterwards. *)
Definition transport (call : sock_call) (b : bool) (c : conn) : conn :=
  {| kind := kind c; rxqueue := rxqueue c; exit_requested := exit_requested c;
     opened := opened c; rxthread := rxthread c; bound := b;
     calls := calls c ++ [call] |}.

(** *** The transport socket, as the connection uses it *)

(** [tpsock.bind(...)]: the isotp socket is bound afterwards.  The call is
    taken to return, which is what it does on a socket that has not been
    closed.  On a socket that [close] has closed, the bind of the isotp
    module raises, so that a second [open] fails there, before
    [Thread.start] is reached. *)
Definition tpsock_bind (c : conn) : conn := transport Bind true c.

(** [tpsock.close()]: the isotp socket is no longer bound. *)
Definition tpsock_close (c : conn) : conn := transport CloseCall false c.

(** [sock.send(payload)] / [tpsock.send(payload)]; the transport is taken to
    accept the payload. *)
Definition sock_send (payload : bytes) (c : conn) : conn :=
  transport (SendCall payload) (bound c) c.

(** A completed [recv]. *)
Definition sock_recv (r : recv_result) (c : conn) : conn :=
  transport (RecvCall r) (bound c) c.

(** *** queue.Queue *)

(** [rxqueue.put(data)]: the queue is unbounded, so [put] appends. *)
Definition Queue_put (data : bytes) (c : conn) : conn :=
  set_rxqueue (rxqueue c ++ [data]) c.

(** What [rxqueue.get(block=True, timeout=...)] gives the caller in the end:
    an item, or [queue.Empty]. *)
Inductive get_result :=
| Item (f : bytes)
| Empty.

(** One turn of the loop inside [Queue.get], with [remaining] time units
    left before the deadline: pop the head if there is one, raise [Empty] if
    there is none and the deadline has passed, keep waiting ([None])
    otherwise.  This is [Queue.get] called with a duration: a timeout that
    is not negative and not above [threading.TIMEOUT_MAX]. *)
Definition Queue_get (remaining : nat) (c : conn) : option get_result * conn :=
  match rxqueue c with
  | f :: q => (Some (Item f), set_rxqueue q c)
  | [] => (if remaining =? 0 then Some Empty else None, c)
  end.

(** [Queue.get] called with the negative timeout [Z.neg timeout]: it tests
    its argument before it looks at the queue ([elif timeout < 0: raise
    ValueError(...)]), so nothing is popped, whatever the queue holds. *)
Definition Queue_get_negative (timeout : positive) (c : conn) : exn * conn :=
  (ValueError "'timeout' must be a non-negative number", c).

(** *** Constructors *)

(** [SocketConnection.__init__]: the socket is supplied by the caller. *)
Definition SocketConnection_init : conn :=
  {| kind := Stream; rxqueue := []; exit_requested := false; opened := false;
     rxthread := Unstarted; bound := false; calls := [Settimeout] |}.


(** *** Methods that never block *)

(** [open]: [Thread.start] raises [RuntimeError] on a thread object that was
    started before. *)
Definition open (c : conn) : result value * conn :=
  let c := match kind c with
           | IsoTP => tpsock_bind c
           | Stream => c
           end in
  let c := set_exit_requested false c in
  match rxthread c with
  | Unstarted => (Return VSelf, set_opened true (set_rxthread AtWhile c))
  | _ => (Raise (RuntimeError "threads can only be started once"), c)
  end.

Definition is_open (c : conn) : bool :=
  match kind c with
  | Stream => opened c
  | IsoTP => bound c
  end.

Definition close (c : conn) : conn :=
  let c := set_exit_requested true c in
  let c := match kind c with
           | IsoTP => tpsock_close c
           | Stream => c
           end in
  set_opened false c.

Definition specific_send (payload : bytes) (c : conn) : conn :=
  sock_send payload c.

(** *** The receive thread: [rxthread_task] *)

(** [while not self.exit_requested]: enter the body, or return. *)
Definition rxthread_task_while (c : conn) : conn :=
  match rxthread c with
  | AtWhile =>
      if exit_requested c then set_rxthread Finished c
      else set_rxthread InRecv c
  | _ => c
  end.

(** The body of the loop, once [recv] has completed with [r]. *)
Definition rxthread_task_body (r : recv_result) (c : conn) : conn :=
  match rxthread c with
  | InRecv =>
      let c := sock_recv r c in
      let c := match r with
               | RecvData data =>
                   match data with
                   | Some d => Queue_put d c      (* data is not None *)
                   | None => c
                   end
               | RecvTimeout => c                 (* except socket.timeout: pass *)
               | RecvError => set_exit_requested true c
               end in
      set_rxthread AtWhile c
  | _ => c
  end.

(** *** [specific_wait_frame] *)

(** Lines 108-112 and 186-190: the guard.  [Some r] when the method ends
    there. *)
Definition specific_wait_frame_guard (exception : bool) (c : conn)
  : option (result (option bytes)) :=
  if negb (opened c) then
    if exception then Some (Raise (RuntimeError "Connection is not opened"))
    else Some (Return None)
  else None.

Definition timeout_text (k : variant) : string :=
  match k with
  | Stream => "Did not received frame in time"
  | IsoTP => "Did not received ISOTP frame in time"
  end.

(** Lines 114-125 and 192-203, once [rxqueue.get] has come back with [g]. *)
Definition specific_wait_frame_end (k : variant) (timeout : nat)
    (exception : bool) (g : get_result) : result (option bytes) :=
  let timedout := match g with Empty => true | Item _ => false end in
  let frame := match g with Item f => Some f | Empty => None end in
  if exception && timedout then Raise (TimeoutException (timeout_text k) timeout)
  else Return frame.

(** The whole of [specific_wait_frame], for a caller that is told what
    [rxqueue.get] comes back with ([g]) should the method get that far. *)
Definition specific_wait_frame (timeout : nat) (exception : bool)
    (g : get_result) (c : conn) : result (option bytes) :=
  if negb (opened c) then
    if exception then Raise (RuntimeError "Connection is not opened")
    else Return None
  else
    let timedout := match g with Empty => true | Item _ => false end in
    let frame := match g with Item f => Some f | Empty => None end in
    if exception && timedout
    then Raise (TimeoutException (timeout_text (kind c)) timeout)
    else Return frame.

(** The whole of [specific_wait_frame] called with the negative timeout
    [Z.neg timeout]: the guard comes first; past it, [rxqueue.get] (lines
    117 and 195) raises [ValueError], which [except queue.Empty] (lines 119
    and 197) does not catch and the exception flag does not govern. *)
Definition specific_wait_frame_negative (timeout : positive)
    (exception : bool) (c : conn) : result (option bytes) * conn :=
  match specific_wait_frame_guard exception c with
  | Some r => (r, c)
  | None => let (e, c') := Queue_get_negative timeout c in (Raise e, c')
  end.

(** [BaseConnection.wait_frame] hands the frame or the exception on. *)
Definition wait_frame_result (r : result (option bytes)) : result value :=
  match r with
  | Return frame => Return (frame_value frame)
  | Raise e => Raise e
  end.

(** *** The context manager *)

(** [__enter__] returns [self]; it does not call [open]. *)
Definition __enter__ (c : conn) : result value * conn := (Return VSelf, c).

(** [__exit__] calls [close], whatever it is given. *)
Definition __exit__ (c : conn) : result value * conn := (Return VNone, close c).

(** ** Measures on a connection *)

(** What [wait_frame] gives on a connection that is not open. *)
Definition not_open (exception : bool) : result value :=
  if exception then Raise (RuntimeError "Connection is not opened")
  else Return VNone.

(** The [recv] calls in progress: one when the receive thread is inside
    [recv], none otherwise. *)
Definition pending (c : conn) : nat :=
  match rxthread c with
  | InRecv => 1
  | _ => 0
  end.

(** The starts the thread object still allows: one before [start] was
    called, none afterwards. *)
Definition starts_left (c : conn) : nat :=
  match rxthread c with
  | Unstarted => 1
  | _ => 0
  end.

(** [l1] is [l2] with some elements taken out, the others in order. *)
Inductive subseq {A : Type} : list A -> list A -> Prop :=
| subseq_nil : subseq [] []
| subseq_skip (a : A) (l1 l2 : list A) : subseq l1 l2 -> subseq l1 (a :: l2)
| subseq_take (a : A) (l1 l2 : list A) : subseq l1 l2 -> subseq (a :: l1) (a :: l2).

(** ** Objects that are not bytes-like *)

(** Python objects that are neither a [Request], a [Response] nor
    bytes-like: [None], an integer, a [str]. *)
Inductive pyother :=
| PyNone
| PyInt (n : Z)
| PyStr (s : string).

(** What ['...' % (len(o), binascii.hexlify(o))] raises on such an object:
    [None] and an integer have no length; a [str] has one, and [hexlify]
    refuses it. *)
Definition bytes_like_error (o : pyother) : exn :=
  match o with
  | PyNone => TypeError "object of type 'NoneType' has no len()"
  | PyInt _ => TypeError "object of type 'int' has no len()"
  | PyStr _ => TypeError "a bytes-like object is required, not 'str'"
  end.

(** ** Sample data *)

(** [get_payload] of a request or response that is known by its payload. *)
Definition payload (b : bytes) : bytes := b.

Definition frame1 : bytes := [x50; x03; x00; x32; x00; x00].
Definition frame2 : bytes := [x7f; x10; x11].

(** A stream connection that has just been opened. *)
Definition opened_stream : conn := snd (open SocketConnection_init).

Section Connections.

(** [udsoncan.Request] and [udsoncan.Response] are not part of this file:
    they are taken as parameters, with their [get_payload] methods. *)
Variables Request Response : Type.
Variable Request_get_payload : Request -> bytes.
Variable Response_get_payload : Response -> bytes.

(** An argument of [send] that has a payload: a request, a response, or a
    [bytes] object, which is its own payload. *)
Inductive pyobj :=
| ARequest (r : Request)
| AResponse (r : Response)
| ABytes (b : bytes).

(** [BaseConnection.send], lines 22-27: the payload. *)
Definition send_payload (obj : pyobj) : bytes :=
  match obj with
  | ARequest r => Request_get_payload r
  | AResponse r => Response_get_payload r
  | ABytes b => b
  end.

(** [BaseConnection.send] with such an argument.  Line 28 takes
    [len(payload)] and [binascii.hexlify(payload)] of a [bytes] object for
    the logger: neither raises, neither touches the connection. *)
Definition send (obj : pyobj) (c : conn) : conn :=
  let payload := send_payload obj in
  specific_send payload c.

(** [BaseConnection.send] with any other object [o]: it is not an instance
    of [Request] or [Response], so it becomes the payload as it is (line
    27); line 28 then evaluates [len(payload)] and
    [binascii.hexlify(payload)]: one of them raises, and [specific_send]
    (line 29) is not reached. *)
Definition send_other (o : pyother) (c : conn) : result value * conn :=
  (Raise (bytes_like_error o), c).

(** ** The machine *)

(** Calls of the caller thread.  [Send] and [WaitFrame] are the calls with
    a payload and with a duration; [SendOther] is [send] with an object
    that is not bytes-like, [WaitFrameNegative timeout exception] is
    [wait_frame] with the timeout [Z.neg timeout]. *)
Inductive action :=
| Open
| Close
| Send (obj : pyobj)
| WaitFrame (timeout : nat) (exception : bool)
| EmptyRxqueue
| IsOpen
| SendOther (o : pyother)
| WaitFrameNegative (timeout : positive) (exception : bool).

(** Where the caller thread stands: between two calls, inside the
    [rxqueue.get] of [wait_frame] ([remaining] time units before the
    deadline), or inside the loop of [empty_rxqueue]. *)
Inductive main_state :=
| Ready
| InGet (timeout remaining : nat) (exception : bool)
| InDrain.

Record sys := {
  con : conn;
  main : main_state;
  history : list (action * result value)   (* completed calls, oldest first *)
}.

Definition returns (a : action) (r : result value) (c : conn) (s : sys) : sys :=
  {| con := c; main := Ready; history := history s ++ [(a, r)] |}.

Definition blocks (m : main_state) (c : conn) (s : sys) : sys :=
  {| con := c; main := m; history := history s |}.

(** The caller thread is scheduled while inside a method.  In [wait_frame]
    it runs one turn of [Queue.get]; in [empty_rxqueue] one turn of
    [while not self.rxqueue.empty(): self.rxqueue.get()]. *)
Definition resume (s : sys) : sys :=
  let c := con s in
  match main s with
  | Ready => s
  | InGet timeout remaining exception =>
      match Queue_get remaining c with
      | (Some g, c') =>
          returns (WaitFrame timeout exception)
            (wait_frame_result (specific_wait_frame_end (kind c) timeout exception g))
            c' s
      | (None, c') => blocks (InGet timeout remaining exception) c' s
      end
  | InDrain =>
      match rxqueue c with
      | [] => returns EmptyRxqueue (Return VNone) c s
      | _ :: q => blocks InDrain (set_rxqueue q c) s
      end
  end.

(** The caller thread, between two calls, calls a method and runs up to the
    point where the method returns or waits. *)
Definition call (a : action) (s : sys) : sys :=
  let c := con s in
  match main s with
  | Ready =>
      match a with
      | Open => let (r, c') := open c in returns a r c' s
      | Close => returns a (Return VNone) (close c) s
      | Send obj => returns a (Return VNone) (send obj c) s
      | IsOpen => returns a (Return (VBool (is_open c))) c s
      | WaitFrame timeout exception =>
          match specific_wait_frame_guard exception c with
          | Some r => returns a (wait_frame_result r) c s
          | None => resume (blocks (InGet timeout timeout exception) c s)
          end
      | EmptyRxqueue => resume (blocks InDrain c s)
      | SendOther o => let (r, c') := send_other o c in returns a r c' s
      | WaitFrameNegative timeout exception =>
          let (r, c') := specific_wait_frame_negative timeout exception c in
          returns a (wait_frame_result r) c' s
      end
  | _ => s
  end.

(** One time unit passes. *)
Definition tick (s : sys) : sys :=
  match main s with
  | InGet timeout remaining exception =>
      blocks (InGet timeout (Nat.pred remaining) exception) (con s) s
  | _ => s
  end.

Inductive event :=
| Call (a : action)
| Resume
| Tick
| RxWhile
| RxRecv (r : recv_result).

(** An event whose actor cannot move leaves the state as it is. *)
Definition step (e : event) (s : sys) : sys :=
  match e with
  | Call a => call a s
  | Resume => resume s
  | Tick => tick s
  | RxWhile => blocks (main s) (rxthread_task_while (con s)) s
  | RxRecv r => blocks (main s) (rxthread_task_body r (con s)) s
  end.

Fixpoint run (sched : list event) (s : sys) : sys :=
  match sched with
  | [] => s
  | e :: sched' => run sched' (step e s)
  end.

(** A connection that no call has been made on yet. *)
Definition start (c : conn) : sys :=
  {| con := c; main := Ready; history := [] |}.

(** ** What an observer sees *)

(** The frame a completed [recv] delivered, if any. *)
Definition received_frame (call : sock_call) : list bytes :=
  match call with
  | RecvCall (RecvData (Some d)) => [d]
  | _ => []
  end.

(** The frames the transport has delivered so far, oldest first. *)
Definition received (c : conn) : list bytes :=
  flat_map received_frame (calls c).

(** The payload a [send] on the transport carried. *)
Definition sent_payload (call : sock_call) : list bytes :=
  match call with
  | SendCall p => [p]
  | _ => []
  end.

(** The payloads transmitted so far, oldest first. *)
Definition sent (c : conn) : list bytes :=
  flat_map sent_payload (calls c).

(** The completed [recv] calls. *)
Definition is_recv (call : sock_call) : bool :=
  match call with
  | RecvCall _ => true
  | _ => false
  end.

Definition reads (c : conn) : list sock_call := filter is_recv (calls c).

(** The frame a completed call handed to the caller, if any. *)
Definition returned_frame (x : action * result value) : list bytes :=
  match x with
  | (WaitFrame _ _, Return (VBytes f)) => [f]
  | _ => []
  end.

(** The frames [wait_frame] has returned so far, oldest first. *)
Definition returned_frames (h : list (action * result value)) : list bytes :=
  flat_map returned_frame h.

(** The caller only calls [wait_frame], with durations. *)
Definition only_waits (e : event) : bool :=
  match e with
  | Call (WaitFrame _ _) => true
  | Call _ => false
  | _ => true
  end.

(** The caller calls neither [empty_rxqueue] nor anything that would run
    it. *)
Definition no_drain (e : event) : bool :=
  match e with
  | Call EmptyRxqueue => false
  | _ => true
  end.

(** The caller does not call [open]. *)
Definition no_open (e : event) : bool :=
  match e with
  | Call Open => false
  | _ => true
  end.

(** The transport delivers no frame: the receive thread may run, but its
    [recv] only times out, fails, or returns [None]. *)
Definition no_frame (e : event) : bool :=
  match e with
  | RxRecv (RecvData (Some _)) => false
  | _ => true
  end.

(** The caller thread starts no new call. *)
Definition no_call (e : event) : bool :=
  match e with
  | Call _ => false
  | _ => true
  end.

(** The time units that pass during a schedule. *)
Definition ticks (sched : list event) : nat :=
  length (filter (fun e => match e with Tick => true | _ => false end) sched).

(** What a [wait_frame] that timed out gives back. *)
Definition timed_out (k : variant) (timeout : nat) (exception : bool)
  : result value :=
  if exception then Raise (TimeoutException (timeout_text k) timeout)
  else Return VNone.

(** [wait_frame] calls, as schedule events. *)
Definition wait_calls (ws : list (nat * bool)) : list event :=
  map (fun w => Call (WaitFrame (fst w) (snd w))) ws.

(** ** Invariants and measures used in the proofs *)

(** What [wait_frame] has returned followed by what is queued. *)
Definition delivered (s : sys) : list bytes :=
  returned_frames (history s) ++ rxqueue (con s).

(** The frames one turn of the receive loop's body pushes. *)
Definition pushed (r : recv_result) (c : conn) : list bytes :=
  match rxthread c with
  | InRecv => received_frame (RecvCall r)
  | _ => []
  end.

(** The frames returned and the frames still queued are, together and in
    this order, the frames the transport delivered. *)
Definition fifo (s : sys) : Prop := delivered s = received (con s).

(** A completed call is a [wait_frame] that returned a frame or timed out. *)
Definition wait_entry (k : variant) (x : action * result value) : Prop :=
  exists t ex, fst x = WaitFrame t ex /\
    (snd x = timed_out k t ex \/ exists f, snd x = Return (VBytes f)).

Definition open_waiting (k : variant) (h0 : list (action * result value))
    (s : sys) : Prop :=
  opened (con s) = true /\ kind (con s) = k /\ main s <> InDrain /\
  exists h, history s = h0 ++ h /\ Forall (wait_entry k) h.

(** The turns of the caller thread in a schedule. *)
Definition resumes (sched : list event) : nat :=
  length (filter (fun e => match e with Resume => true | _ => false end) sched).

(** While [empty_rxqueue] runs, and after it has returned: [k] frames have
    been popped from what was queued at the call ([q0]) followed by what
    arrived since ([new]); when the method has returned, everything queued
    at the call is among them. *)
Definition draining (q0 r0 : list bytes) (h0 : list (action * result value))
    (s : sys) : Prop :=
  exists k new,
    received (con s) = r0 ++ new /\
    rxqueue (con s) = skipn k (q0 ++ new) /\
    k <= length (q0 ++ new) /\
    ((main s = InDrain /\ history s = h0) \/
     (main s = Ready /\ history s = h0 ++ [(EmptyRxqueue, Return VNone)] /\
      length q0 <= k)).

(** The receive loop has been told to stop and is not inside [recv]. *)
Definition stopped (c : conn) : Prop :=
  exit_requested c = true /\ (rxthread c = AtWhile \/ rxthread c = Finished).

(** What is unchanged between two states of a connection whose receive loop
    has stopped; the queue has at most lost frames at its head. *)
Definition quiet (c c' : conn) : Prop :=
  stopped c' /\ reads c' = reads c /\ received c' = received c /\
  exists k, rxqueue c' = skipn k (rxqueue c).

(** A [wait_frame] called without [exception] returned normally, with a
    frame or [None]. *)
Definition no_raise (x : action * result value) : Prop :=
  forall t, fst x = WaitFrame t false ->
    snd x = Return VNone \/ exists f, snd x = Return (VBytes f).

(** ** Reading the history *)

(** A [with conn: body] statement, as moves of the caller thread:
    [__enter__] changes nothing, the body runs, [__exit__] is [close]. *)
Definition with_block (body : list event) : list event :=
  body ++ [Call Close].

(** The [open] calls that returned normally. *)
Definition is_opening (x : action * result value) : bool :=
  match x with
  | (Open, Return _) => true
  | _ => false
  end.

Definition opens_returned (h : list (action * result value)) : nat :=
  length (filter is_opening h).

(** The payload of a completed [send]. *)
Definition send_entry (x : action * result value) : list bytes :=
  match x with
  | (Send obj, Return _) => [send_payload obj]
  | _ => []
  end.

(** The payloads of the completed [send] calls, oldest first. *)
Definition sends (h : list (action * result value)) : list bytes :=
  flat_map send_entry h.

(** The value of [opened] after the calls of a history, from its value
    before: an [open] that returned sets it, a [close] clears it. *)
Definition lifecycle_entry (b : bool) (x : action * result value) : bool :=
  match x with
  | (Open, Return _) => true
  | (Close, _) => false
  | _ => b
  end.

Definition lifecycle (h : list (action * result value)) (b : bool) : bool :=
  fold_left lifecycle_entry h b.

(** The caller thread is not inside [wait_frame]. *)
Definition not_waiting (s : sys) : Prop :=
  main s = Ready \/ main s = InDrain.

(** A completed call that is no [wait_frame] returning a frame, and that,
    when it is a [wait_frame], found the connection not open. *)
Definition refused (x : action * result value) : Prop :=
  returned_frame x = [] /\
  forall t ex, fst x = WaitFrame t ex -> snd x = not_open ex.

(** ** Sample runs *)

(** An open stream connection whose receive thread is inside [recv]. *)
Definition listening : sys :=
  run [Call Open; RxWhile] (start SocketConnection_init).

(** The caller waits, the first frame arrives during the wait, the second
    one before the second call. *)
Definition two_frames : list event :=
  [Call (WaitFrame 3 true); RxWhile; Tick; RxRecv (RecvData (Some frame1));
   Resume; RxWhile; RxRecv RecvTimeout; RxWhile;
   RxRecv (RecvData (Some frame2)); Call (WaitFrame 0 false)].

(** ** Basic facts *)

Lemma run_app (l1 l2 : list event) (s : sys) :
  run (l1 ++ l2) s = run l2 (run l1 s).
Proof.
  revert s. induction l1 as [|e l1 IH]; intros s; simpl; [reflexivity|].
  apply IH.
Qed.

Lemma returned_frames_app (h1 h2 : list (action * result value)) :
  returned_frames (h1 ++ h2) = returned_frames h1 ++ returned_frames h2.
Proof. unfold returned_frames. apply flat_map_app. Qed.

Lemma received_transport (call : sock_call) (b : bool) (c : conn) :
  received (transport call b c) = received c ++ received_frame call.
Proof.
  unfold received, transport; simpl.
  rewrite flat_map_app. simpl. now rewrite app_nil_r.
Qed.

Lemma wait_frame_end_item (k : variant) (t : nat) (ex : bool) (f : bytes) :
  wait_frame_result (specific_wait_frame_end k t ex (Item f)) = Return (VBytes f).
Proof. unfold specific_wait_frame_end. now rewrite andb_false_r. Qed.

Lemma wait_frame_end_empty (k : variant) (t : nat) (ex : bool) :
  wait_frame_result (specific_wait_frame_end k t ex Empty) = timed_out k t ex.
Proof. unfold specific_wait_frame_end, timed_out. now destruct ex. Qed.

(** The two parts of [specific_wait_frame] the machine runs make up the
    method. *)
Lemma specific_wait_frame_parts (t : nat) (ex : bool) (g : get_result) (c : conn) :
  specific_wait_frame t ex g c =
  match specific_wait_frame_guard ex c with
  | Some r => r
  | None => specific_wait_frame_end (kind c) t ex g
  end.
Proof.
  unfold specific_wait_frame, specific_wait_frame_guard, specific_wait_frame_end.
  destruct (opened c); simpl; [reflexivity|]. now destruct ex.
Qed.

Lemma open_rxqueue (c : conn) : rxqueue (snd (open c)) = rxqueue c.
Proof. unfold open. destruct (kind c); simpl; destruct (rxthread c); reflexivity. Qed.

Lemma open_received (c : conn) : received (snd (open c)) = received c.
Proof.
  unfold open, received.
  destruct (kind c); simpl; destruct (rxthread c); simpl;
    rewrite ?flat_map_app; simpl; now rewrite ?app_nil_r.
Qed.

Lemma close_rxqueue (c : conn) : rxqueue (close c) = rxqueue c.
Proof. unfold close; simpl. destruct (kind c); reflexivity. Qed.

Lemma close_received (c : conn) : received (close c) = received c.
Proof.
  unfold close, received; simpl.
  destruct (kind c); simpl; rewrite ?flat_map_app; simpl; now rewrite ?app_nil_r.
Qed.

(** ** First in, first out *)

Lemma body_rxqueue (r : recv_result) (c : conn) :
  rxqueue (rxthread_task_body r c) = rxqueue c ++ pushed r c.
Proof.
  unfold rxthread_task_body, pushed.
  destruct (rxthread c); simpl; try now rewrite app_nil_r.
  destruct r as [[d|]| |]; simpl; now rewrite ?app_nil_r.
Qed.

Lemma body_received (r : recv_result) (c : conn) :
  received (rxthread_task_body r c) = received c ++ pushed r c.
Proof.
  unfold rxthread_task_body, pushed.
  destruct (rxthread c); simpl; try now rewrite app_nil_r.
  destruct r as [[d|]| |]; unfold received; simpl;
    rewrite flat_map_app; simpl; now rewrite ?app_nil_r.
Qed.

Lemma while_rxqueue (c : conn) : rxqueue (rxthread_task_while c) = rxqueue c.
Proof.
  unfold rxthread_task_while.
  destruct (rxthread c); try reflexivity. now destruct (exit_requested c).
Qed.

Lemma while_calls (c : conn) : calls (rxthread_task_while c) = calls c.
Proof.
  unfold rxthread_task_while.
  destruct (rxthread c); try reflexivity. now destruct (exit_requested c).
Qed.

(** A call with a negative timeout ends at once and leaves the connection
    as it is: with the answer of the guard on a connection that is not
    open, with [ValueError] on one that is. *)
Lemma wait_negative_returns (p : positive) (ex : bool) (c : conn) :
  exists r, specific_wait_frame_negative p ex c = (r, c).
Proof.
  unfold specific_wait_frame_negative, specific_wait_frame_guard.
  destruct (opened c), ex; simpl; eauto.
Qed.

Lemma wait_negative_open (p : positive) (ex : bool) (c : conn) :
  opened c = true ->
  specific_wait_frame_negative p ex c =
  (Raise (ValueError "'timeout' must be a non-negative number"), c).
Proof.
  intros Ho. unfold specific_wait_frame_negative, specific_wait_frame_guard.
  now rewrite Ho.
Qed.

Lemma wait_negative_closed (p : positive) (ex : bool) (c : conn) :
  opened c = false ->
  exists r, specific_wait_frame_negative p ex c = (r, c) /\
            wait_frame_result r = not_open ex.
Proof.
  intros Ho. unfold specific_wait_frame_negative, specific_wait_frame_guard.
  rewrite Ho. destruct ex; simpl; eauto.
Qed.

(** The calls that end on their argument: [send] with an object that is
    not bytes-like, [wait_frame] with a negative timeout. *)
Ltac refused_call :=
  match goal with
  | |- context [send_other _ _] => cbn [send_other]
  | |- context [specific_wait_frame_negative ?p ?ex ?c] =>
      let r := fresh "r" in
      destruct (wait_negative_returns p ex c) as [r ->]
  | _ => idtac
  end.

Lemma resume_fifo (s : sys) :
  main s <> InDrain ->
  main (resume s) <> InDrain /\
  delivered (resume s) = delivered s /\
  calls (con (resume s)) = calls (con s).
Proof.
  destruct s as [c m h]. unfold resume, delivered, Queue_get; simpl. intros Hm.
  destruct m as [|t rem ex|]; simpl; [easy| |contradiction].
  destruct (rxqueue c) as [|f q] eqn:Hq; simpl.
  - destruct (rem =? 0); simpl; rewrite ?Hq.
    + repeat split; [discriminate|].
      rewrite returned_frames_app, wait_frame_end_empty.
      destruct ex; simpl; now rewrite ?app_nil_r.
    + repeat split. discriminate.
  - repeat split; [discriminate|].
    rewrite returned_frames_app, wait_frame_end_item. simpl.
    now rewrite <- app_assoc.
Qed.

(** Every move that is not a drain extends both [delivered] and
    [received] by the same frames. *)
Lemma step_fifo (e : event) (s : sys) :
  main s <> InDrain -> no_drain e = true ->
  main (step e s) <> InDrain /\
  exists d, delivered (step e s) = delivered s ++ d /\
            received (con (step e s)) = received (con s) ++ d.
Proof.
  intros Hm He.
  destruct e as [a| | | |r]; cbn [step].
  - (* Call *)
    unfold call. destruct (main s) eqn:Em; try contradiction.
    + destruct a as [| |obj|t ex| | |o|p px]; try discriminate He.
      * destruct (open (con s)) as [r c'] eqn:Ho.
        split; [discriminate|]. exists []. unfold delivered, returns; cbn [con history main].
        pose proof (open_rxqueue (con s)) as Hq.
        pose proof (open_received (con s)) as Hr.
        rewrite Ho in Hq, Hr. simpl in Hq, Hr.
        rewrite Hq, Hr, returned_frames_app.
        destruct r; simpl; now rewrite !app_nil_r.
      * split; [discriminate|]. exists []. unfold delivered, returns; cbn [con history main].
        rewrite close_rxqueue, close_received, returned_frames_app.
        simpl; now rewrite !app_nil_r.
      * split; [discriminate|]. exists []. unfold delivered, returns; cbn [con history main].
        unfold send, specific_send, sock_send.
        rewrite received_transport, returned_frames_app.
        simpl; now rewrite !app_nil_r.
      * unfold specific_wait_frame_guard.
        destruct (opened (con s)); cbn [negb].
        -- destruct (resume_fifo (blocks (InGet t t ex) (con s) s)) as (H1 & H2 & H3);
             [discriminate|].
           split; [exact H1|]. exists [].
           rewrite H2, app_nil_r. unfold received. rewrite H3, app_nil_r.
           split; reflexivity.
        -- destruct ex; (split; [discriminate|]); exists [];
             unfold delivered, returns; cbn [con history main];
             rewrite returned_frames_app; simpl; now rewrite !app_nil_r.
      * split; [discriminate|]. exists [].
        unfold delivered, returns; cbn [con history main].
        rewrite returned_frames_app. simpl; now rewrite !app_nil_r.
      * cbn [send_other]. split; [discriminate|]. exists [].
        unfold delivered, returns; cbn [con history main].
        rewrite returned_frames_app. simpl; now rewrite !app_nil_r.
      * destruct (wait_negative_returns p px (con s)) as [r ->].
        split; [discriminate|]. exists [].
        unfold delivered, returns; cbn [con history main].
        rewrite returned_frames_app. simpl; now rewrite !app_nil_r.
    + rewrite Em. split; [discriminate|]. exists []. now rewrite !app_nil_r.
  - destruct (resume_fifo s Hm) as (H1 & H2 & H3).
    split; [exact H1|]. exists [].
    rewrite H2, app_nil_r. unfold received. rewrite H3, app_nil_r.
    split; reflexivity.
  - unfold tick. destruct (main s) eqn:Em; simpl; rewrite ?Em;
      (split; [try discriminate; try assumption|]); exists [];
      now rewrite !app_nil_r.
  - split; [exact Hm|]. exists [].
    unfold delivered, received, blocks; cbn [con history main].
    now rewrite while_rxqueue, while_calls, !app_nil_r.
  - split; [exact Hm|]. exists (pushed r (con s)).
    unfold delivered, blocks; cbn [con history main].
    now rewrite body_rxqueue, body_received, app_assoc.
Qed.

Lemma run_fifo (sched : list event) (s : sys) :
  main s <> InDrain -> forallb no_drain sched = true -> fifo s ->
  main (run sched s) <> InDrain /\ fifo (run sched s).
Proof.
  revert s. induction sched as [|e sched IH]; intros s Hm Hs Hf; simpl.
  - now split.
  - simpl in Hs. apply andb_prop in Hs. destruct Hs as [He Hs].
    destruct (step_fifo e s Hm He) as (Hm' & d & Hd & Hr).
    apply IH; [exact Hm'|exact Hs|].
    unfold fifo in *. now rewrite Hd, Hr, Hf.
Qed.

(** *** The caller thread, case by case *)

Lemma resume_get (s : sys) (t rem : nat) (ex : bool) :
  main s = InGet t rem ex ->
  resume s =
  match rxqueue (con s) with
  | f :: q => returns (WaitFrame t ex) (Return (VBytes f)) (set_rxqueue q (con s)) s
  | [] => if rem =? 0
          then returns (WaitFrame t ex) (timed_out (kind (con s)) t ex) (con s) s
          else s
  end.
Proof.
  destruct s as [c m h]; simpl; intros ->. unfold resume, Queue_get; simpl.
  destruct (rxqueue c) as [|f q]; simpl.
  - destruct (rem =? 0); [|reflexivity]. now rewrite wait_frame_end_empty.
  - now rewrite wait_frame_end_item.
Qed.

Lemma call_wait_open (s : sys) (t : nat) (ex : bool) :
  main s = Ready -> opened (con s) = true ->
  call (WaitFrame t ex) s = resume (blocks (InGet t t ex) (con s) s).
Proof.
  intros Hm Ho. unfold call, specific_wait_frame_guard. now rewrite Hm, Ho.
Qed.

Lemma call_wait_closed (s : sys) (t : nat) (ex : bool) :
  main s = Ready -> opened (con s) = false ->
  call (WaitFrame t ex) s =
  returns (WaitFrame t ex)
    (if ex then Raise (RuntimeError "Connection is not opened") else Return VNone)
    (con s) s.
Proof.
  intros Hm Ho. unfold call, specific_wait_frame_guard. rewrite Hm, Ho.
  now destruct ex.
Qed.

(** A frame is queued: [wait_frame] returns the head at once, whatever the
    timeout. *)
Lemma call_wait_item (s : sys) (t : nat) (ex : bool) (f : bytes) (q : list bytes) :
  main s = Ready -> opened (con s) = true -> rxqueue (con s) = f :: q ->
  step (Call (WaitFrame t ex)) s =
  returns (WaitFrame t ex) (Return (VBytes f)) (set_rxqueue q (con s)) s.
Proof.
  intros Hm Ho Hq. cbn [step]. rewrite call_wait_open by assumption.
  rewrite (resume_get _ t t ex) by reflexivity.
  cbn [blocks con]. now rewrite Hq.
Qed.

(** A blocked [wait_frame] returns the frame that arrives, the next time the
    caller thread runs, even when the deadline has passed meanwhile. *)
Lemma blocked_wait_item (s : sys) (t rem : nat) (ex : bool) (f : bytes) :
  main s = InGet t rem ex -> rxthread (con s) = InRecv -> rxqueue (con s) = [] ->
  let s' := run [RxRecv (RecvData (Some f)); Resume] s in
  main s' = Ready /\
  history s' = history s ++ [(WaitFrame t ex, Return (VBytes f))] /\
  rxqueue (con s') = [].
Proof.
  intros Hm Ht Hq. cbn [run step].
  rewrite (resume_get _ t rem ex) by exact Hm.
  cbn [blocks con]. rewrite body_rxqueue, Hq. unfold pushed. rewrite Ht.
  simpl. auto.
Qed.

(** *** What stays put *)

Lemma body_kind (r : recv_result) (c : conn) : kind (rxthread_task_body r c) = kind c.
Proof.
  unfold rxthread_task_body. destruct (rxthread c); try reflexivity.
  now destruct r as [[d|]| |].
Qed.

Lemma body_opened (r : recv_result) (c : conn) :
  opened (rxthread_task_body r c) = opened c.
Proof.
  unfold rxthread_task_body. destruct (rxthread c); try reflexivity.
  now destruct r as [[d|]| |].
Qed.

Lemma body_bound (r : recv_result) (c : conn) :
  bound (rxthread_task_body r c) = bound c.
Proof.
  unfold rxthread_task_body. destruct (rxthread c); try reflexivity.
  now destruct r as [[d|]| |].
Qed.

Lemma while_kind (c : conn) : kind (rxthread_task_while c) = kind c.
Proof.
  unfold rxthread_task_while. destruct (rxthread c); try reflexivity.
  now destruct (exit_requested c).
Qed.

Lemma while_opened (c : conn) : opened (rxthread_task_while c) = opened c.
Proof.
  unfold rxthread_task_while. destruct (rxthread c); try reflexivity.
  now destruct (exit_requested c).
Qed.

Lemma while_bound (c : conn) : bound (rxthread_task_while c) = bound c.
Proof.
  unfold rxthread_task_while. destruct (rxthread c); try reflexivity.
  now destruct (exit_requested c).
Qed.

(** *** A caller that only waits on an open connection *)

Lemma open_waiting_returns (k : variant) (h0 : list (action * result value))
    (s : sys) (t : nat) (ex : bool) (r : result value) (c : conn) :
  open_waiting k h0 s -> opened c = true -> kind c = k ->
  r = timed_out k t ex \/ (exists f, r = Return (VBytes f)) ->
  open_waiting k h0 (returns (WaitFrame t ex) r c s).
Proof.
  intros (Ho & Hk & Hm & h & Hh & Hf) Ho' Hk' Hr.
  repeat split; cbn [returns con main history]; try assumption; try discriminate.
  exists (h ++ [(WaitFrame t ex, r)]). split.
  - now rewrite Hh, app_assoc.
  - apply Forall_app; split; [assumption|]. constructor; [|constructor].
    now exists t, ex.
Qed.

Lemma resume_waiting (k : variant) (h0 : list (action * result value)) (s : sys) :
  open_waiting k h0 s -> open_waiting k h0 (resume s).
Proof.
  intros Hw. pose proof Hw as (Ho & Hk & Hm & Hh).
  destruct (main s) as [|t rem ex|] eqn:Em; [| |contradiction].
  - unfold resume. now rewrite Em.
  - rewrite (resume_get s t rem ex Em).
    destruct (rxqueue (con s)) as [|f q].
    + destruct (rem =? 0); [|assumption].
      apply open_waiting_returns; try assumption. left. now rewrite Hk.
    + apply open_waiting_returns; try assumption. right. now exists f.
Qed.

Lemma step_waiting (k : variant) (h0 : list (action * result value))
    (e : event) (s : sys) :
  only_waits e = true -> open_waiting k h0 s -> open_waiting k h0 (step e s).
Proof.
  intros He Hw. pose proof Hw as (Ho & Hk & Hm & Hh).
  destruct e as [a| | | |r]; cbn [step].
  - destruct a; try discriminate He.
    destruct (main s) eqn:Em.
    + rewrite call_wait_open by assumption.
      apply resume_waiting. repeat split; cbn [blocks con main history];
        try assumption; discriminate.
    + unfold call. now rewrite Em.
    + contradiction.
  - now apply resume_waiting.
  - unfold tick. destruct (main s) eqn:Em; try assumption.
    repeat split; cbn [blocks con main history]; try assumption; discriminate.
  - repeat split; cbn [blocks con main history]; try assumption.
    + now rewrite while_opened.
    + now rewrite while_kind.
  - repeat split; cbn [blocks con main history]; try assumption.
    + now rewrite body_opened.
    + now rewrite body_kind.
Qed.

Lemma run_waiting (k : variant) (h0 : list (action * result value))
    (sched : list event) (s : sys) :
  forallb only_waits sched = true -> open_waiting k h0 s ->
  open_waiting k h0 (run sched s).
Proof.
  revert s. induction sched as [|e sched IH]; intros s Hs Hw; simpl; [assumption|].
  simpl in Hs. apply andb_prop in Hs. destruct Hs as [He Hs].
  apply IH; [assumption|]. now apply step_waiting.
Qed.

Lemma open_waiting_init (s : sys) :
  opened (con s) = true -> main s <> InDrain ->
  open_waiting (kind (con s)) (history s) s.
Proof.
  intros Ho Hm. repeat split; try assumption.
  exists []. now rewrite app_nil_r.
Qed.

Lemma only_waits_no_drain (sched : list event) :
  forallb only_waits sched = true -> forallb no_drain sched = true.
Proof.
  induction sched as [|e sched IH]; simpl; [reflexivity|].
  intros H. apply andb_prop in H. destruct H as [He Hs].
  rewrite (IH Hs), andb_true_r. destruct e as [a| | | |r]; try reflexivity.
  now destruct a.
Qed.

(** Calls that did not time out returned frames, and the results are the
    frames of [returned_frames]. *)
Lemma no_timeout_results (k : variant) (h : list (action * result value)) :
  Forall (wait_entry k) h ->
  (forall t ex, ~ In (WaitFrame t ex, timed_out k t ex) h) ->
  map snd h = map (fun f => Return (VBytes f)) (returned_frames h).
Proof.
  induction h as [|[a r] h IH]; intros Hh Hn; [reflexivity|].
  inversion Hh as [|x l (t & ex & Ha & Hr) Hl]; subst. simpl in Ha, Hr. subst a.
  destruct Hr as [Hr|[f Hr]]; subst r.
  - exfalso. apply (Hn t ex). now left.
  - simpl. f_equal. apply IH; [assumption|].
    intros t' ex' Hin. apply (Hn t' ex'). now right.
Qed.

(** Frames already queued: as many [wait_frame] calls as there are frames
    return them in order, at once, whatever their timeouts. *)
Lemma wait_calls_queued (ws : list (nat * bool)) (s : sys) :
  main s = Ready -> opened (con s) = true ->
  length ws = length (rxqueue (con s)) ->
  let s' := run (wait_calls ws) s in
  main s' = Ready /\ rxqueue (con s') = [] /\
  history s' =
    history s ++
    map (fun x => (WaitFrame (fst (fst x)) (snd (fst x)), Return (VBytes (snd x))))
        (combine ws (rxqueue (con s))).
Proof.
  revert s. induction ws as [|[t ex] ws IH]; intros s Hm Ho Hl; simpl in *.
  - destruct (rxqueue (con s)); [|discriminate]. now rewrite app_nil_r.
  - destruct (rxqueue (con s)) as [|f q] eqn:Hq; [discriminate|].
    pose proof (call_wait_item s t ex f q Hm Ho Hq) as Hc. cbn [step] in Hc.
    rewrite Hc.
    destruct (IH (returns (WaitFrame t ex) (Return (VBytes f)) (set_rxqueue q (con s)) s))
      as (H1 & H2 & H3); cbn [returns con main history set_rxqueue rxqueue opened];
      try easy.
    + simpl in Hl. now injection Hl.
    + repeat split; try assumption.
      cbn [returns con main history set_rxqueue rxqueue] in H3.
      rewrite H3, <- app_assoc. reflexivity.
Qed.

Lemma app_split_length (A : Type) (l1 l2 : list A) :
  firstn (length l1) (l1 ++ l2) = l1 /\ skipn (length l1) (l1 ++ l2) = l2.
Proof.
  induction l1 as [|a l1 [IH1 IH2]]; simpl; [now split|].
  now rewrite IH1, IH2.
Qed.

Lemma returned_frames_combine (ws : list (nat * bool)) (q : list bytes) :
  length ws = length q ->
  returned_frames
    (map (fun x => (WaitFrame (fst (fst x)) (snd (fst x)), Return (VBytes (snd x))))
         (combine ws q)) = q.
Proof.
  revert q. induction ws as [|w ws IH]; intros [|f q] Hl; try discriminate;
    [reflexivity|].
  simpl. f_equal. apply IH. simpl in Hl. now injection Hl.
Qed.

(** C1.  On an open connection whose caller only calls [wait_frame], under
    every interleaving of the caller, the receive thread and the clock:
    when the transport has delivered exactly [fs = f1..fN] and the [N]
    calls completed so far did not time out, their results are [f1..fN] in
    this order; at any moment the frames returned are a prefix of [fs] and
    the queue holds the rest, so that no frame is returned twice, lost or
    overtaken; and the frames still queued are returned, in order and at
    once, by the next calls whatever their timeouts. *)
Theorem wait_frame_fifo (fs : list bytes) (sched : list event) (c : conn) :
  opened c = true -> rxqueue c = [] -> received c = [] ->
  forallb only_waits sched = true ->
  received (con (run sched (start c))) = fs ->
  let s := run sched (start c) in
  (length (history s) = length fs ->
   (forall t ex, ~ In (WaitFrame t ex, timed_out (kind c) t ex) (history s)) ->
   map snd (history s) = map (fun f => Return (VBytes f)) fs) /\
  (exists k, returned_frames (history s) = firstn k fs /\
             rxqueue (con s) = skipn k fs) /\
  (forall ws : list (nat * bool),
     main s = Ready -> length ws = length (rxqueue (con s)) ->
     let s' := run (wait_calls ws) s in
     main s' = Ready /\ rxqueue (con s') = [] /\
     returned_frames (history s') = fs /\
     history s' =
       history s ++
       map (fun x => (WaitFrame (fst (fst x)) (snd (fst x)), Return (VBytes (snd x))))
           (combine ws (rxqueue (con s)))).
Proof.
  intros Ho Hq Hr Hs Hfs s.
  assert (Hw : open_waiting (kind c) [] s).
  { apply run_waiting; [assumption|].
    apply (open_waiting_init (start c)); [assumption|discriminate]. }
  assert (Hf : fifo s).
  { apply run_fifo; cbn [start con main history].
    - discriminate.
    - now apply only_waits_no_drain.
    - unfold fifo, delivered; cbn [start con main history]. now rewrite Hq, Hr. }
  unfold fifo, delivered in Hf. fold s in Hfs. rewrite Hfs in Hf.
  destruct Hw as (Ho' & Hk & Hm & h & Hh' & Hh).
  simpl in Hh'. subst h.
  split; [|split].
  - intros Hlen Hnt.
    rewrite (no_timeout_results (kind c) (history s) Hh Hnt).
    f_equal.
    assert (Hl : length (returned_frames (history s)) = length fs).
    { rewrite <- Hlen, <- (length_map snd (history s)).
      rewrite (no_timeout_results (kind c) (history s) Hh Hnt).
      now rewrite length_map. }
    rewrite <- Hf in Hl. rewrite length_app in Hl.
    destruct (rxqueue (con s)); [|simpl in Hl; lia].
    now rewrite app_nil_r in Hf.
  - exists (length (returned_frames (history s))). rewrite <- Hf.
    destruct (app_split_length _ (returned_frames (history s)) (rxqueue (con s))).
    now split.
  - intros ws Hr' Hl s'.
    destruct (wait_calls_queued ws s Hr' Ho' Hl) as (H1 & H2 & H3).
    fold s' in H1, H2, H3. repeat split; try assumption.
    rewrite H3, returned_frames_app, <- Hf. f_equal.
    now apply returned_frames_combine.
Qed.

(** ** Waiting on an idle transport *)

Lemma no_frame_pushed (r : recv_result) (c : conn) :
  no_frame (RxRecv r) = true -> pushed r c = [].
Proof.
  unfold pushed. destruct (rxthread c); try reflexivity.
  now destruct r as [[d|]| |].
Qed.

Lemma resume_flags (s : sys) :
  opened (con (resume s)) = opened (con s) /\
  kind (con (resume s)) = kind (con s) /\
  bound (con (resume s)) = bound (con s).
Proof.
  destruct s as [c m h]. unfold resume, Queue_get; simpl.
  destruct m as [|t rem ex|]; simpl; [easy| |].
  - destruct (rxqueue c); simpl; [|easy]. now destruct (rem =? 0).
  - now destruct (rxqueue c).
Qed.

(** The receive thread and the clock leave the lifecycle flags alone, and so
    does a caller thread that is inside a call. *)
Lemma env_step_flags (e : event) (s : sys) :
  no_call e = true ->
  opened (con (step e s)) = opened (con s) /\
  kind (con (step e s)) = kind (con s) /\
  bound (con (step e s)) = bound (con s).
Proof.
  intros He. destruct e as [a| | | |r]; cbn [step]; try discriminate He.
  - apply resume_flags.
  - unfold tick. now destruct (main s).
  - cbn [blocks con]. now rewrite while_opened, while_kind, while_bound.
  - cbn [blocks con]. now rewrite body_opened, body_kind, body_bound.
Qed.

Lemma env_run_flags (sched : list event) (s : sys) :
  forallb no_call sched = true ->
  opened (con (run sched s)) = opened (con s) /\
  kind (con (run sched s)) = kind (con s) /\
  bound (con (run sched s)) = bound (con s).
Proof.
  revert s. induction sched as [|e sched IH]; intros s Hs; simpl; [easy|].
  simpl in Hs. apply andb_prop in Hs. destruct Hs as [He Hs].
  destruct (IH (step e s) Hs) as (H1 & H2 & H3).
  destruct (env_step_flags e s He) as (G1 & G2 & G3).
  now rewrite H1, H2, H3.
Qed.

(** A caller between two calls stays there while it starts no call; with
    an idle transport the queue does not move either. *)
Lemma idle_ready (sched : list event) (s : sys) :
  main s = Ready ->
  forallb no_call sched = true -> forallb no_frame sched = true ->
  main (run sched s) = Ready /\ history (run sched s) = history s /\
  rxqueue (con (run sched s)) = rxqueue (con s).
Proof.
  revert s. induction sched as [|e sched IH]; intros s Hm Hc Hf; simpl; [easy|].
  simpl in Hc, Hf. apply andb_prop in Hc, Hf.
  destruct Hc as [Hc Hcs], Hf as [Hf Hfs].
  assert (H : main (step e s) = Ready /\ history (step e s) = history s /\
              rxqueue (con (step e s)) = rxqueue (con s)).
  { destruct e as [a| | | |r]; cbn [step]; try discriminate Hc.
    - unfold resume. now rewrite Hm.
    - unfold tick. now rewrite Hm.
    - cbn [blocks con main history]. now rewrite while_rxqueue.
    - cbn [blocks con main history].
      now rewrite body_rxqueue, no_frame_pushed, app_nil_r. }
  destruct H as (H1 & H2 & H3).
  destruct (IH (step e s) H1 Hcs Hfs) as (G1 & G2 & G3).
  now rewrite G1, G2, G3.
Qed.

(** A caller blocked in [wait_frame] on an empty queue, with an idle
    transport: either it is still waiting, with the time that passed taken
    off what remained, or it has timed out, and then at least what remained
    has passed. *)
Lemma idle_wait (sched : list event) (s : sys) (t rem : nat) (ex : bool) :
  main s = InGet t rem ex -> rxqueue (con s) = [] ->
  forallb no_call sched = true -> forallb no_frame sched = true ->
  rxqueue (con (run sched s)) = [] /\
  ((main (run sched s) = InGet t (rem - ticks sched) ex /\
    history (run sched s) = history s) \/
   (main (run sched s) = Ready /\
    history (run sched s) =
      history s ++ [(WaitFrame t ex, timed_out (kind (con s)) t ex)] /\
    rem <= ticks sched)).
Proof.
  revert s rem. induction sched as [|e sched IH]; intros s rem Hm Hq Hc Hf.
  - simpl. split; [assumption|]. left. now rewrite Nat.sub_0_r.
  - simpl in Hc, Hf. apply andb_prop in Hc, Hf.
    destruct Hc as [Hc Hcs], Hf as [Hf Hfs].
    destruct e as [a| | | |r]; try discriminate Hc; cbn [run step].
    + (* Resume *)
      rewrite (resume_get s t rem ex Hm), Hq.
      destruct (rem =? 0) eqn:Er.
      * apply Nat.eqb_eq in Er. subst rem.
        destruct (idle_ready sched
                    (returns (WaitFrame t ex) (timed_out (kind (con s)) t ex) (con s) s))
          as (G1 & G2 & G3); try assumption; try reflexivity.
        cbn [returns con main history] in G2, G3.
        split; [now rewrite G3|]. right.
        repeat split; [assumption|assumption|lia].
      * destruct (IH s rem Hm Hq Hcs Hfs) as (G1 & G2).
        split; [assumption|]. exact G2.
    + (* Tick *)
      unfold tick. rewrite Hm.
      destruct (IH (blocks (InGet t (Nat.pred rem) ex) (con s) s) (Nat.pred rem))
        as (G1 & G2); try assumption; try reflexivity.
      split; [assumption|].
      cbn [blocks con main history] in G2.
      replace (ticks (Tick :: sched)) with (S (ticks sched)) by reflexivity.
      destruct G2 as [(G2 & G3)|(G2 & G3 & G4)].
      * left. split; [|assumption]. rewrite G2. f_equal. lia.
      * right. repeat split; [assumption|assumption|lia].
    + (* RxWhile *)
      destruct (IH (blocks (main s) (rxthread_task_while (con s)) s) rem)
        as (G1 & G2); try assumption.
      * cbn [blocks con]. now rewrite while_rxqueue.
      * split; [assumption|]. cbn [blocks con main history] in G2.
        now rewrite while_kind in G2.
    + (* RxRecv *)
      destruct (IH (blocks (main s) (rxthread_task_body r (con s)) s) rem)
        as (G1 & G2); try assumption.
      * cbn [blocks con]. now rewrite body_rxqueue, no_frame_pushed, Hq.
      * split; [assumption|]. cbn [blocks con main history] in G2.
        now rewrite body_kind in G2.
Qed.

(** [wait_frame] on an open connection with nothing queued and an idle
    transport. *)
Lemma call_wait_idle (s : sys) (t : nat) (ex : bool) (sched : list event) :
  main s = Ready -> opened (con s) = true -> rxqueue (con s) = [] ->
  forallb no_call sched = true -> forallb no_frame sched = true ->
  let outcome :=
    if ex then Raise (TimeoutException (timeout_text (kind (con s))) t)
    else Return VNone in
  let s1 := run (Call (WaitFrame t ex) :: sched) s in
  let s2 := run (Call (WaitFrame t ex) :: sched ++ [Resume]) s in
  (main s1 = Ready ->
   history s1 = history s ++ [(WaitFrame t ex, outcome)] /\ t <= ticks sched) /\
  (t <= ticks sched ->
   main s2 = Ready /\ history s2 = history s ++ [(WaitFrame t ex, outcome)]) /\
  opened (con s1) = true /\ is_open (con s1) = is_open (con s) /\
  opened (con s2) = true /\ is_open (con s2) = is_open (con s).
Proof.
  intros Hm Ho Hq Hc Hf outcome s1 s2.
  change outcome with (timed_out (kind (con s)) t ex).
  assert (E1 : s1 = run (Resume :: sched) (blocks (InGet t t ex) (con s) s)).
  { unfold s1. cbn [run step]. now rewrite call_wait_open. }
  assert (E2 : s2 = run (Resume :: sched ++ [Resume]) (blocks (InGet t t ex) (con s) s)).
  { unfold s2. cbn [run step]. now rewrite call_wait_open. }
  assert (Hflags : forall l, forallb no_call l = true ->
            let s' := run l (blocks (InGet t t ex) (con s) s) in
            opened (con s') = true /\ is_open (con s') = is_open (con s)).
  { intros l Hl s'.
    destruct (env_run_flags l (blocks (InGet t t ex) (con s) s) Hl) as (F1 & F2 & F3).
    fold s' in F1, F2, F3. cbn [blocks con] in F1, F2, F3.
    unfold is_open. now rewrite F1, F2, F3. }
  assert (Hc2 : forallb no_call (Resume :: sched ++ [Resume]) = true).
  { simpl. rewrite forallb_app, Hc. reflexivity. }
  assert (Hf2 : forallb no_frame (Resume :: sched ++ [Resume]) = true).
  { simpl. rewrite forallb_app, Hf. reflexivity. }
  destruct (idle_wait (Resume :: sched) (blocks (InGet t t ex) (con s) s) t t ex)
    as (Q1 & W1); try assumption; try reflexivity.
  destruct (idle_wait (Resume :: sched ++ [Resume]) (blocks (InGet t t ex) (con s) s) t t ex)
    as (Q2 & W2); try assumption; try reflexivity.
  rewrite <- E1 in Q1, W1. rewrite <- E2 in Q2, W2.
  cbn [blocks con main history] in W1, W2.
  replace (ticks (Resume :: sched)) with (ticks sched) in W1 by reflexivity.
  split; [|split].
  - intros Hr. destruct W1 as [(W & _)|(_ & W & Wt)]; [congruence|now split].
  - intros Ht. destruct W2 as [(W & _)|(W & W' & _)]; [|now split].
    exfalso.
    (* still waiting after the last turn of the caller thread: impossible *)
    revert W. rewrite E2.
    change (Resume :: sched ++ [Resume]) with ((Resume :: sched) ++ [Resume]).
    rewrite run_app. rewrite <- E1. cbn [run step].
    destruct W1 as [(W1 & _)|(W1 & _)].
    + rewrite (resume_get s1 t (t - ticks sched) ex W1), Q1.
      replace (t - ticks sched) with 0 by lia. discriminate.
    + unfold resume. rewrite W1. congruence.
  - rewrite E1, E2.
    destruct (Hflags (Resume :: sched)) as (A1 & A2); [exact Hc|].
    destruct (Hflags (Resume :: sched ++ [Resume])) as (B1 & B2); [exact Hc2|].
    auto.
Qed.


(** C2.  [wait_frame] on an open connection with nothing queued, while the
    transport delivers no frame: when the call has returned it has timed
    out, giving [None] without [exception] and raising [TimeoutException]
    with the timeout with it, and not before [timeout] time units have
    passed; once they have passed the call does return, the next time the
    caller thread runs; the connection is still open afterwards and the
    caller free for the next call. *)
Theorem wait_frame_times_out (s : sys) (t : nat) (ex : bool) (sched : list event) :
  main s = Ready -> opened (con s) = true -> rxqueue (con s) = [] ->
  forallb no_call sched = true -> forallb no_frame sched = true ->
  let outcome :=
    if ex then Raise (TimeoutException (timeout_text (kind (con s))) t)
    else Return VNone in
  let s1 := run (Call (WaitFrame t ex) :: sched) s in
  let s2 := run (Call (WaitFrame t ex) :: sched ++ [Resume]) s in
  (main s1 = Ready ->
   history s1 = history s ++ [(WaitFrame t ex, outcome)] /\ t <= ticks sched) /\
  (t <= ticks sched ->
   main s2 = Ready /\ history s2 = history s ++ [(WaitFrame t ex, outcome)]) /\
  opened (con s1) = true /\ is_open (con s1) = is_open (con s) /\
  opened (con s2) = true /\ is_open (con s2) = is_open (con s).
Proof. exact (call_wait_idle s t ex sched). Qed.
(** ** Draining the queue *)

Lemma while_received (c : conn) : received (rxthread_task_while c) = received c.
Proof. unfold received. now rewrite while_calls. Qed.

Lemma skipn_cons_step (A : Type) (k : nat) (l : list A) (a : A) (q : list A) :
  skipn k l = a :: q -> skipn (S k) l = q /\ S k <= length l.
Proof.
  revert l. induction k as [|k IH]; intros [|b l] H; simpl in *; try discriminate.
  - injection H as -> ->. split; [reflexivity|lia].
  - destruct (IH l H) as [H1 H2]. split; [exact H1|lia].
Qed.

Lemma skipn_nil_length (A : Type) (k : nat) (l : list A) :
  skipn k l = [] -> length l <= k.
Proof.
  intros H. pose proof (length_skipn k l) as Hl. rewrite H in Hl. simpl in Hl. lia.
Qed.

Lemma skipn_app_short (A : Type) (k : nat) (l1 l2 : list A) :
  k <= length l1 -> skipn k (l1 ++ l2) = skipn k l1 ++ l2.
Proof.
  intros H. rewrite skipn_app. replace (k - length l1) with 0 by lia. reflexivity.
Qed.

Lemma resume_draining (q0 r0 : list bytes) (h0 : list (action * result value))
    (s : sys) :
  draining q0 r0 h0 s -> draining q0 r0 h0 (resume s).
Proof.
  intros (k & new & Hr & Hq & Hk & Hm).
  destruct Hm as [(Hm & Hh)|(Hm & Hh & Hl)].
  - unfold resume. rewrite Hm.
    destruct (rxqueue (con s)) as [|f q] eqn:Eq.
    + exists k, new. cbn [returns con main history]. rewrite Eq.
      repeat split; try assumption. right. rewrite Hh.
      repeat split. symmetry in Hq. apply skipn_nil_length in Hq.
      rewrite length_app in Hq. lia.
    + symmetry in Hq. apply skipn_cons_step in Hq. destruct Hq as [Hq Hk'].
      exists (S k), new. cbn [blocks con main history set_rxqueue rxqueue calls].
      repeat split; try assumption; [now symmetry|]. left. now split.
  - unfold resume. rewrite Hm. exists k, new. repeat split; try assumption.
    right. now repeat split.
Qed.

Lemma step_draining (q0 r0 : list bytes) (h0 : list (action * result value))
    (e : event) (s : sys) :
  no_call e = true -> draining q0 r0 h0 s -> draining q0 r0 h0 (step e s).
Proof.
  intros He Hd. destruct e as [a| | | |r]; cbn [step]; try discriminate He.
  - now apply resume_draining.
  - destruct Hd as (k & new & Hr & Hq & Hk & Hm).
    replace (tick s) with s; [exists k, new; auto|].
    unfold tick. destruct Hm as [(Hm & _)|(Hm & _)]; now rewrite Hm.
  - destruct Hd as (k & new & Hr & Hq & Hk & Hm).
    exists k, new. cbn [blocks con main history].
    rewrite while_received, while_rxqueue. auto.
  - destruct Hd as (k & new & Hr & Hq & Hk & Hm).
    exists k, (new ++ pushed r (con s)). cbn [blocks con main history].
    rewrite body_received, body_rxqueue, Hr, Hq, !app_assoc.
    repeat split; try assumption.
    + now rewrite (skipn_app_short _ k (q0 ++ new) (pushed r (con s))) by assumption.
    + rewrite length_app. lia.
Qed.

Lemma run_draining (q0 r0 : list bytes) (h0 : list (action * result value))
    (sched : list event) (s : sys) :
  forallb no_call sched = true -> draining q0 r0 h0 s ->
  draining q0 r0 h0 (run sched s).
Proof.
  revert s. induction sched as [|e sched IH]; intros s Hs Hd; simpl; [assumption|].
  simpl in Hs. apply andb_prop in Hs. destruct Hs as [He Hs].
  apply IH; [assumption|]. now apply step_draining.
Qed.

(** With an idle transport, every turn of the caller thread pops one frame,
    and the turn that finds the queue empty returns. *)
Lemma idle_drain (sched : list event) (s : sys) :
  main s = InDrain ->
  forallb no_call sched = true -> forallb no_frame sched = true ->
  (main (run sched s) = InDrain /\ resumes sched <= length (rxqueue (con s))) \/
  (main (run sched s) = Ready /\ rxqueue (con (run sched s)) = [] /\
   length (rxqueue (con s)) < resumes sched).
Proof.
  revert s. induction sched as [|e sched IH]; intros s Hm Hc Hf.
  - left. simpl. split; [assumption|]. unfold resumes; simpl; lia.
  - simpl in Hc, Hf. apply andb_prop in Hc, Hf.
    destruct Hc as [Hc Hcs], Hf as [Hf Hfs].
    destruct e as [a| | | |r]; try discriminate Hc; cbn [run step].
    + replace (resumes (Resume :: sched)) with (S (resumes sched)) by reflexivity.
      unfold resume. rewrite Hm.
      destruct (rxqueue (con s)) as [|f q] eqn:Eq.
      * right.
        destruct (idle_ready sched (returns EmptyRxqueue (Return VNone) (con s) s))
          as (G1 & G2 & G3); try assumption; try reflexivity.
        cbn [returns con] in G3. rewrite G3, Eq. simpl. repeat split; [assumption|lia].
      * destruct (IH (blocks InDrain (set_rxqueue q (con s)) s)) as [(G1 & G2)|(G1 & G2 & G3)];
          try assumption; try reflexivity;
          cbn [blocks con set_rxqueue rxqueue] in *; simpl.
        -- left. split; [assumption|lia].
        -- right. repeat split; [assumption|assumption|lia].
    + replace (tick s) with s by (unfold tick; now rewrite Hm).
      now apply IH.
    + destruct (IH (blocks (main s) (rxthread_task_while (con s)) s)) as [G|G];
        try assumption; cbn [blocks con] in G; rewrite while_rxqueue in G; tauto.
    + destruct (IH (blocks (main s) (rxthread_task_body r (con s)) s)) as [G|G];
        try assumption; cbn [blocks con] in G;
        rewrite body_rxqueue, no_frame_pushed, app_nil_r in G by assumption; tauto.
Qed.

Lemma call_drain (s : sys) :
  main s = Ready -> call EmptyRxqueue s = resume (blocks InDrain (con s) s).
Proof. intros Hm. unfold call. now rewrite Hm. Qed.

(** C7.  [empty_rxqueue] on an empty queue returns at once and changes
    nothing.  Whatever the receive thread does meanwhile, once the method
    has returned, every frame that was queued when it was called has been
    popped and none was handed to the caller.  With an idle transport the
    method returns after one turn per queued frame and leaves the queue
    empty, and the next [wait_frame] on the open connection times out once
    its timeout has passed. *)
Theorem empty_rxqueue_discards (s : sys) (during after : list event)
    (t : nat) (ex : bool) :
  main s = Ready ->
  forallb no_call during = true ->
  forallb no_call after = true -> forallb no_frame after = true ->
  let drained := run (Call EmptyRxqueue :: during) s in
  let waited := run (Call (WaitFrame t ex) :: after ++ [Resume]) drained in
  let outcome :=
    if ex then Raise (TimeoutException (timeout_text (kind (con s))) t)
    else Return VNone in
  (rxqueue (con s) = [] ->
   step (Call EmptyRxqueue) s = returns EmptyRxqueue (Return VNone) (con s) s) /\
  (main drained = Ready ->
   history drained = history s ++ [(EmptyRxqueue, Return VNone)] /\
   exists k new,
     received (con drained) = received (con s) ++ new /\
     length (rxqueue (con s)) <= k /\
     rxqueue (con drained) = skipn k (rxqueue (con s) ++ new)) /\
  (forallb no_frame during = true ->
   (length (rxqueue (con s)) <= resumes during -> main drained = Ready) /\
   (main drained = Ready ->
    rxqueue (con drained) = [] /\
    (opened (con s) = true -> t <= ticks after ->
     main waited = Ready /\
     history waited =
       history s ++ [(EmptyRxqueue, Return VNone); (WaitFrame t ex, outcome)]))).
Proof.
  intros Hm Hd Ha Hf drained waited outcome.
  set (s0 := blocks InDrain (con s) s).
  assert (E : drained = run (Resume :: during) s0).
  { unfold drained. cbn [run step]. now rewrite call_drain. }
  assert (Hinv : draining (rxqueue (con s)) (received (con s)) (history s) drained).
  { rewrite E. apply run_draining; [exact Hd|].
    exists 0, []. cbn [s0 blocks con main history]. rewrite !app_nil_r.
    repeat split; [lia|]. left. now split. }
  assert (Hflags : opened (con drained) = opened (con s) /\
                   kind (con drained) = kind (con s)).
  { rewrite E.
    destruct (env_run_flags (Resume :: during) s0) as (F1 & F2 & _); [exact Hd|].
    now split. }
  split; [|split].
  - intros Hq. cbn [step]. rewrite call_drain by assumption.
    unfold resume. cbn [s0 blocks con main]. now rewrite Hq.
  - intros Hr. destruct Hinv as (k & new & H1 & H2 & H3 & H4).
    destruct H4 as [(H4 & _)|(_ & H4 & H5)]; [congruence|].
    split; [assumption|]. now exists k, new.
  - intros Hi.
    destruct (idle_drain (Resume :: during) s0) as [(G1 & G2)|(G1 & G2 & G3)];
      try assumption; try reflexivity; rewrite <- E in *;
      replace (resumes (Resume :: during)) with (S (resumes during)) in * by reflexivity;
      cbn [s0 blocks con] in *.
    + split; [intros; lia|]. intros Hr. congruence.
    + split; [intros; assumption|]. intros _. split; [assumption|].
      intros Ho Ht.
      destruct Hflags as (F1 & F2).
      destruct (call_wait_idle drained t ex after) as (_ & W & _);
        try assumption; [now rewrite F1|].
      destruct (W Ht) as (W1 & W2). fold waited in W1, W2.
      split; [assumption|]. rewrite W2, F2.
      destruct Hinv as (k & new & _ & _ & _ & [(H4 & _)|(_ & H4 & _)]); [congruence|].
      rewrite H4, <- app_assoc. reflexivity.
Qed.

(** ** After a failed read *)

Lemma quiet_refl (c : conn) : stopped c -> quiet c c.
Proof. intros H. repeat split; try apply H. now exists 0. Qed.

Lemma quiet_trans (c1 c2 c3 : conn) : quiet c1 c2 -> quiet c2 c3 -> quiet c1 c3.
Proof.
  intros (_ & R1 & D1 & k1 & Q1) (S2 & R2 & D2 & k2 & Q2).
  repeat split; try apply S2; try congruence.
  exists (k2 + k1). now rewrite Q2, Q1, skipn_skipn.
Qed.

Lemma quiet_pop (c : conn) (f : bytes) (q : list bytes) :
  stopped c -> rxqueue c = f :: q -> quiet c (set_rxqueue q c).
Proof.
  intros H Hq. repeat split; try apply H. exists 1. now rewrite Hq.
Qed.

Lemma resume_con (s : sys) :
  con (resume s) = con s \/
  exists f q, rxqueue (con s) = f :: q /\ con (resume s) = set_rxqueue q (con s).
Proof.
  destruct s as [c m h]. unfold resume, Queue_get; simpl.
  destruct m as [|t rem ex|]; simpl; [now left| |].
  - destruct (rxqueue c) as [|f q]; simpl.
    + left. now destruct (rem =? 0).
    + right. now exists f, q.
  - destruct (rxqueue c) as [|f q]; simpl; [now left|].
    right. now exists f, q.
Qed.

Lemma resume_quiet (s : sys) : stopped (con s) -> quiet (con s) (con (resume s)).
Proof.
  intros H. destruct (resume_con s) as [E|(f & q & Hq & E)]; rewrite E.
  - now apply quiet_refl.
  - now apply quiet_pop with f.
Qed.

Lemma reads_transport (call : sock_call) (b : bool) (c : conn) :
  is_recv call = false -> reads (transport call b c) = reads c.
Proof.
  intros H. unfold reads, transport; simpl.
  rewrite filter_app. simpl. rewrite H. apply app_nil_r.
Qed.

Lemma step_quiet (e : event) (s : sys) :
  no_open e = true -> stopped (con s) -> quiet (con s) (con (step e s)).
Proof.
  intros He Hs. pose proof Hs as (Hx & Ht).
  destruct e as [a| | | |r]; cbn [step].
  - unfold call. destruct (main s) eqn:Em; try now apply quiet_refl.
    destruct a as [| |obj|t ex| | |o|p px]; try discriminate He;
      refused_call; cbn [returns con]; try now apply quiet_refl.
    + (* Close *)
      unfold close; simpl. destruct (kind (con s)); simpl.
      * repeat split; simpl; try assumption. now exists 0.
      * repeat split; simpl; try assumption.
        -- now apply (reads_transport CloseCall false (set_exit_requested true (con s))).
        -- unfold received; simpl. rewrite flat_map_app. simpl. apply app_nil_r.
        -- now exists 0.
    + (* Send *)
      unfold send, specific_send, sock_send.
      repeat split; simpl; try assumption.
      * now apply (reads_transport (SendCall (send_payload obj)) (bound (con s)) (con s)).
      * rewrite received_transport. apply app_nil_r.
      * now exists 0.
    + (* WaitFrame *)
      destruct (specific_wait_frame_guard ex (con s)); cbn [returns con];
        [now apply quiet_refl|].
      apply (resume_quiet (blocks (InGet t t ex) (con s) s)). exact Hs.
    + (* EmptyRxqueue *)
      apply (resume_quiet (blocks InDrain (con s) s)). exact Hs.
  - now apply resume_quiet.
  - replace (con (tick s)) with (con s); [now apply quiet_refl|].
    unfold tick. now destruct (main s).
  - cbn [blocks con]. unfold rxthread_task_while.
    destruct Ht as [Ht|Ht]; rewrite Ht; [|now apply quiet_refl].
    rewrite Hx. repeat split; simpl; try assumption; [now right|now exists 0].
  - cbn [blocks con]. unfold rxthread_task_body.
    destruct Ht as [Ht|Ht]; rewrite Ht; now apply quiet_refl.
Qed.

Lemma run_quiet (sched : list event) (s : sys) :
  forallb no_open sched = true -> stopped (con s) ->
  quiet (con s) (con (run sched s)).
Proof.
  revert s. induction sched as [|e sched IH]; intros s Hs Hst; simpl.
  - now apply quiet_refl.
  - simpl in Hs. apply andb_prop in Hs. destruct Hs as [He Hs].
    pose proof (step_quiet e s He Hst) as Hq.
    apply quiet_trans with (con (step e s)); [assumption|].
    apply IH; [assumption|]. apply Hq.
Qed.

Lemma open_rxthread_finished (c : conn) :
  rxthread c = Finished -> rxthread (snd (open c)) = Finished.
Proof. intros H. unfold open. destruct (kind c); simpl; now rewrite H. Qed.

(** A thread that has returned stays so, whatever is called. *)
Lemma step_finished (e : event) (s : sys) :
  rxthread (con s) = Finished -> rxthread (con (step e s)) = Finished.
Proof.
  intros H. destruct e as [a| | | |r]; cbn [step].
  - unfold call. destruct (main s) eqn:Em; try assumption.
    destruct a as [| |obj|t ex| | |o|p px]; refused_call; cbn [returns con];
      try assumption.
    + pose proof (open_rxthread_finished (con s) H) as Ho.
      destruct (open (con s)) as [r c']. exact Ho.
    + unfold close; simpl. now destruct (kind (con s)).
    + destruct (specific_wait_frame_guard ex (con s)); cbn [returns con];
        [assumption|].
      destruct (resume_con (blocks (InGet t t ex) (con s) s)) as [E|(f & q & _ & E)];
        now rewrite E.
    + destruct (resume_con (blocks InDrain (con s) s)) as [E|(f & q & _ & E)];
        now rewrite E.
  - destruct (resume_con s) as [E|(f & q & _ & E)]; now rewrite E.
  - unfold tick. now destruct (main s).
  - cbn [blocks con]. unfold rxthread_task_while. now rewrite H.
  - cbn [blocks con]. unfold rxthread_task_body. now rewrite H.
Qed.

Lemma run_finished (sched : list event) (s : sys) :
  rxthread (con s) = Finished -> rxthread (con (run sched s)) = Finished.
Proof.
  revert s. induction sched as [|e sched IH]; intros s H; simpl; [assumption|].
  apply IH. now apply step_finished.
Qed.

(** Once told to stop, the loop returns the first time its thread runs. *)
Lemma run_stops (sched : list event) (s : sys) :
  forallb no_open sched = true -> stopped (con s) -> In RxWhile sched ->
  rxthread (con (run sched s)) = Finished.
Proof.
  revert s. induction sched as [|e sched IH]; intros s Hs Hst Hin; [contradiction|].
  simpl in Hs. apply andb_prop in Hs. destruct Hs as [He Hs].
  destruct Hin as [->|Hin]; simpl.
  - apply run_finished. cbn [blocks con]. unfold rxthread_task_while.
    destruct Hst as (Hx & [Ht|Ht]); rewrite Ht; [now rewrite Hx|exact Ht].
  - apply IH; try assumption. apply (step_quiet e s He Hst).
Qed.

(** [run_fifo], without the assumption that nothing was lost before. *)
Lemma run_fifo_ext (sched : list event) (s : sys) :
  main s <> InDrain -> forallb no_drain sched = true ->
  exists d, delivered (run sched s) = delivered s ++ d /\
            received (con (run sched s)) = received (con s) ++ d.
Proof.
  revert s. induction sched as [|e sched IH]; intros s Hm Hs; simpl.
  - exists []. now rewrite !app_nil_r.
  - simpl in Hs. apply andb_prop in Hs. destruct Hs as [He Hs].
    destruct (step_fifo e s Hm He) as (Hm' & d & Hd & Hr).
    destruct (IH (step e s) Hm' Hs) as (d' & Hd' & Hr').
    exists (d ++ d'). now rewrite Hd', Hr', Hd, Hr, !app_assoc.
Qed.

Lemma only_waits_no_open (sched : list event) :
  forallb only_waits sched = true -> forallb no_open sched = true.
Proof.
  induction sched as [|e sched IH]; simpl; [reflexivity|].
  intros H. apply andb_prop in H. destruct H as [He Hs].
  rewrite (IH Hs), andb_true_r. destruct e as [a| | | |r]; try reflexivity.
  now destruct a.
Qed.

Lemma waits_step_flags (e : event) (s : sys) :
  only_waits e = true ->
  opened (con (step e s)) = opened (con s) /\
  kind (con (step e s)) = kind (con s) /\
  bound (con (step e s)) = bound (con s).
Proof.
  intros He. destruct e as [a| | | |r]; try (now apply env_step_flags).
  destruct a as [| |obj|t ex| | |o|p px]; try discriminate He.
  cbn [step]. unfold call. destruct (main s); try easy.
  destruct (specific_wait_frame_guard ex (con s)); [easy|].
  apply (resume_flags (blocks (InGet t t ex) (con s) s)).
Qed.

Lemma waits_run_flags (sched : list event) (s : sys) :
  forallb only_waits sched = true ->
  opened (con (run sched s)) = opened (con s) /\
  kind (con (run sched s)) = kind (con s) /\
  bound (con (run sched s)) = bound (con s).
Proof.
  revert s. induction sched as [|e sched IH]; intros s Hs; simpl; [easy|].
  simpl in Hs. apply andb_prop in Hs. destruct Hs as [He Hs].
  destruct (IH (step e s) Hs) as (H1 & H2 & H3).
  destruct (waits_step_flags e s He) as (G1 & G2 & G3).
  now rewrite H1, H2, H3.
Qed.

Lemma only_timeouts (k : variant) (h : list (action * result value)) :
  Forall (wait_entry k) h -> returned_frames h = [] ->
  Forall (fun x => exists t ex, x = (WaitFrame t ex, timed_out k t ex)) h.
Proof.
  induction h as [|[a r] h IH]; intros Hh Hr; constructor;
    inversion Hh as [|x l (t & ex & Ha & Ho) Hl]; subst; simpl in Ha, Ho; subst a.
  - destruct Ho as [->|[f ->]]; [now exists t, ex|discriminate Hr].
  - apply IH; [assumption|].
    destruct Ho as [->|[f ->]]; [|discriminate Hr].
    unfold returned_frames in *. simpl in Hr.
    destruct ex; simpl in Hr; exact Hr.
Qed.

(** The failed read itself. *)
Lemma receive_error (s : sys) :
  rxthread (con s) = InRecv ->
  let s1 := step (RxRecv RecvError) s in
  stopped (con s1) /\ rxthread (con s1) = AtWhile /\
  opened (con s1) = opened (con s) /\ is_open (con s1) = is_open (con s) /\
  kind (con s1) = kind (con s) /\
  rxqueue (con s1) = rxqueue (con s) /\ received (con s1) = received (con s) /\
  main s1 = main s /\ history s1 = history s.
Proof.
  intros Ht. cbn [step blocks con main history].
  unfold rxthread_task_body, is_open, stopped. rewrite Ht. simpl.
  repeat split; auto.
  unfold received; simpl. rewrite flat_map_app. simpl. apply app_nil_r.
Qed.

(** C8, amended.  The receive thread's [recv] raises something other than
    [socket.timeout].  Nothing the caller can see changes: [opened],
    [is_open], the queue, the caller's own state.  From then on, as long as
    [open] is not called again: the thread never enters [recv] again and
    returns the first time it runs, no [recv] completes, no frame is
    received, and the queue only loses frames at its head.  A caller that
    goes on calling [wait_frame] on the open connection gets the frames
    that were queued, in order, and timeouts ([None] or [TimeoutException])
    for every other call; with nothing queued a call times out once its
    timeout has passed. *)
Theorem receive_error_stops (s : sys) (sched : list event) :
  rxthread (con s) = InRecv ->
  let s1 := step (RxRecv RecvError) s in
  let s2 := run sched s1 in
  (opened (con s1) = opened (con s) /\ is_open (con s1) = is_open (con s) /\
   rxqueue (con s1) = rxqueue (con s) /\
   main s1 = main s /\ history s1 = history s) /\
  (forallb no_open sched = true ->
   rxthread (con s2) <> InRecv /\
   (In RxWhile sched -> rxthread (con s2) = Finished) /\
   reads (con s2) = reads (con s1) /\
   received (con s2) = received (con s1) /\
   exists k, rxqueue (con s2) = skipn k (rxqueue (con s))) /\
  (forallb only_waits sched = true ->
   opened (con s) = true -> main s <> InDrain ->
   opened (con s2) = true /\ is_open (con s2) = is_open (con s) /\
   exists h,
     history s2 = history s ++ h /\
     Forall (fun x => exists t ex,
               fst x = WaitFrame t ex /\
               (snd x = (if ex
                         then Raise (TimeoutException (timeout_text (kind (con s))) t)
                         else Return VNone) \/
                exists f, snd x = Return (VBytes f))) h /\
     returned_frames h ++ rxqueue (con s2) = rxqueue (con s) /\
     (rxqueue (con s) = [] ->
      Forall (fun x => exists t ex,
                x = (WaitFrame t ex,
                     if ex
                     then Raise (TimeoutException (timeout_text (kind (con s))) t)
                     else Return VNone)) h)) /\
  (forall (t : nat) (ex : bool) (after : list event),
   main s = Ready -> opened (con s) = true -> rxqueue (con s) = [] ->
   forallb no_call after = true -> forallb no_frame after = true ->
   t <= ticks after ->
   let s3 := run (Call (WaitFrame t ex) :: after ++ [Resume]) s1 in
   main s3 = Ready /\
   history s3 =
     history s ++
     [(WaitFrame t ex,
       if ex then Raise (TimeoutException (timeout_text (kind (con s))) t)
       else Return VNone)]).
Proof.
  intros Ht s1 s2.
  destruct (receive_error s Ht) as (Hst & Hth & Ho & Hio & Hk & Hq & Hr & Hm & Hh).
  fold s1 in Hst, Hth, Ho, Hio, Hk, Hq, Hr, Hm, Hh.
  split; [now repeat split|]. split; [|split].
  - intros Hs.
    destruct (run_quiet sched s1 Hs Hst) as (Hst2 & R & D & k & Q).
    fold s2 in Hst2, R, D, Q.
    split; [|split; [|split; [|split]]]; try assumption.
    + destruct Hst2 as (_ & [E|E]); rewrite E; discriminate.
    + intros Hin. now apply run_stops.
    + exists k. now rewrite Q, Hq.
  - intros Hs Hop Hnd.
    destruct (waits_run_flags sched s1 Hs) as (F1 & F2 & F3). fold s2 in F1, F2, F3.
    split; [congruence|]. split.
    { unfold is_open. rewrite F1, F2, F3. exact Hio. }
    destruct (run_waiting (kind (con s)) (history s1) sched s1 Hs)
      as (_ & _ & _ & h & Hh2 & Hf).
    { rewrite <- Hk. apply open_waiting_init; congruence. }
    fold s2 in Hh2. exists h. rewrite <- Hh. split; [exact Hh2|].
    split; [exact Hf|].
    assert (Hd : returned_frames h ++ rxqueue (con s2) = rxqueue (con s)).
    { destruct (run_fifo_ext sched s1) as (d & Hd & Hrd).
      - congruence.
      - now apply only_waits_no_drain.
      - fold s2 in Hd, Hrd.
        destruct (run_quiet sched s1 (only_waits_no_open sched Hs) Hst)
          as (_ & _ & D & _).
        fold s2 in D. rewrite D in Hrd.
        assert (d = []) as ->.
        { apply (app_inv_head (received (con s1))). now rewrite app_nil_r. }
        rewrite app_nil_r in Hd. unfold delivered in Hd.
        rewrite Hh2, returned_frames_app, <- app_assoc in Hd.
        apply app_inv_head in Hd. now rewrite Hd, Hq. }
    split; [exact Hd|].
    intros Hqe. apply only_timeouts; [exact Hf|].
    rewrite Hqe in Hd. now apply app_eq_nil in Hd.
  - intros t ex after Hms Hop Hqe Hc Hf Hti s3.
    destruct (call_wait_idle s1 t ex after) as (_ & W & _); try congruence.
    destruct (W Hti) as (W1 & W2). fold s3 in W1, W2.
    split; [exact W1|]. now rewrite W2, Hk, Hh.
Qed.

(** ** What a step can add to the history, and to the queue *)

Lemma resume_history (s : sys) :
  history (resume s) = history s \/
  exists x, history (resume s) = history s ++ [x] /\ no_raise x.
Proof.
  destruct (main s) as [|t rem ex|] eqn:Em.
  - left. unfold resume. now rewrite Em.
  - rewrite (resume_get s t rem ex Em).
    destruct (rxqueue (con s)) as [|f q].
    + destruct (rem =? 0); [|now left]. right.
      eexists. split; [reflexivity|]. intros t' H. injection H as -> ->.
      now left.
    + right. eexists. split; [reflexivity|]. intros t' H. right. now exists f.
  - unfold resume. rewrite Em. destruct (rxqueue (con s)); [|now left].
    right. eexists. split; [reflexivity|]. intros t' H. discriminate H.
Qed.

Lemma step_history (e : event) (s : sys) :
  history (step e s) = history s \/
  exists x, history (step e s) = history s ++ [x] /\ no_raise x.
Proof.
  destruct e as [a| | | |r]; cbn [step].
  - unfold call. destruct (main s) eqn:Em; try now left.
    destruct a as [| |obj|t ex| | |o|p px].
    + destruct (open (con s)) as [r c']. right. eexists.
      split; [reflexivity|]. intros t' H. discriminate H.
    + right. eexists. split; [reflexivity|]. intros t' H. discriminate H.
    + right. eexists. split; [reflexivity|]. intros t' H. discriminate H.
    + unfold specific_wait_frame_guard. destruct (opened (con s)); cbn [negb].
      * apply (resume_history (blocks (InGet t t ex) (con s) s)).
      * right. destruct ex; (eexists; split; [reflexivity|]); intros t' H;
          [discriminate H|now left].
    + apply (resume_history (blocks InDrain (con s) s)).
    + right. eexists. split; [reflexivity|]. intros t' H. discriminate H.
    + refused_call. right. eexists. split; [reflexivity|]. intros t' H.
      discriminate H.
    + refused_call. right. eexists. split; [reflexivity|]. intros t' H.
      discriminate H.
  - apply resume_history.
  - left. unfold tick. now destruct (main s).
  - now left.
  - now left.
Qed.

Lemma run_history (sched : list event) (s : sys) :
  exists h, history (run sched s) = history s ++ h /\ Forall no_raise h.
Proof.
  revert s. induction sched as [|e sched IH]; intros s; simpl.
  - exists []. now rewrite app_nil_r.
  - destruct (IH (step e s)) as (h & Hh & Hf).
    destruct (step_history e s) as [E|(x & E & Hx)]; rewrite E in Hh.
    + now exists h.
    + exists (x :: h). split; [now rewrite Hh, <- app_assoc|now constructor].
Qed.

(** Only the body of the receive loop puts anything on the queue. *)
Lemma step_no_push (e : event) (s : sys) :
  (forall r, e <> RxRecv r) ->
  exists k, rxqueue (con (step e s)) = skipn k (rxqueue (con s)).
Proof.
  intros He.
  assert (Hres : forall s', exists k, rxqueue (con (resume s')) = skipn k (rxqueue (con s'))).
  { intros s'. destruct (resume_con s') as [E|(f & q & Hq & E)]; rewrite E.
    - now exists 0.
    - exists 1. now rewrite Hq. }
  destruct e as [a| | | |r]; cbn [step].
  - unfold call. destruct (main s) eqn:Em; try now exists 0.
    destruct a as [| |obj|t ex| | |o|p px]; refused_call; cbn [returns con];
      try now exists 0.
    + pose proof (open_rxqueue (con s)) as Ho.
      destruct (open (con s)) as [r c']. exists 0. exact Ho.
    + exists 0. apply close_rxqueue.
    + destruct (specific_wait_frame_guard ex (con s)); cbn [returns con];
        [now exists 0|].
      apply (Hres (blocks (InGet t t ex) (con s) s)).
    + apply (Hres (blocks InDrain (con s) s)).
  - apply Hres.
  - exists 0. unfold tick. now destruct (main s).
  - exists 0. cbn [blocks con]. apply while_rxqueue.
  - now destruct (He r).
Qed.

(** ** Between two calls *)

Lemma while_started (c : conn) :
  rxthread c <> Unstarted -> rxthread (rxthread_task_while c) <> Unstarted.
Proof.
  intros H. unfold rxthread_task_while.
  destruct (rxthread c) eqn:E; try (now rewrite E).
  now destruct (exit_requested c).
Qed.

Lemma body_started (r : recv_result) (c : conn) :
  rxthread c <> Unstarted -> rxthread (rxthread_task_body r c) <> Unstarted.
Proof.
  intros H. unfold rxthread_task_body.
  destruct (rxthread c) eqn:E; try (now rewrite E). discriminate.
Qed.

(** While the caller makes no call, only the receive thread moves: the
    caller stays between two calls, the queue grows by what is received,
    and a started thread stays started. *)
Lemma ready_env (sched : list event) (s : sys) :
  main s = Ready -> forallb no_call sched = true ->
  main (run sched s) = Ready /\ history (run sched s) = history s /\
  (rxthread (con s) <> Unstarted -> rxthread (con (run sched s)) <> Unstarted) /\
  exists d, rxqueue (con (run sched s)) = rxqueue (con s) ++ d /\
            received (con (run sched s)) = received (con s) ++ d.
Proof.
  revert s. induction sched as [|e sched IH]; intros s Hm Hc; simpl.
  - repeat split; auto. exists []. now rewrite !app_nil_r.
  - simpl in Hc. apply andb_prop in Hc. destruct Hc as [Hc Hcs].
    assert (H : main (step e s) = Ready /\ history (step e s) = history s /\
                (rxthread (con s) <> Unstarted ->
                 rxthread (con (step e s)) <> Unstarted) /\
                exists d, rxqueue (con (step e s)) = rxqueue (con s) ++ d /\
                          received (con (step e s)) = received (con s) ++ d).
    { destruct e as [a| | | |r]; cbn [step]; try discriminate Hc.
      - unfold resume. rewrite Hm. repeat split; auto.
        exists []. now rewrite !app_nil_r.
      - unfold tick. rewrite Hm. repeat split; auto.
        exists []. now rewrite !app_nil_r.
      - cbn [blocks con main history]. repeat split; auto.
        + apply while_started.
        + exists []. now rewrite while_rxqueue, while_received, !app_nil_r.
      - cbn [blocks con main history]. repeat split; auto.
        + apply body_started.
        + exists (pushed r (con s)). now rewrite body_rxqueue, body_received. }
    destruct H as (H1 & H2 & H3 & d & H4 & H5).
    destruct (IH (step e s) H1 Hcs) as (G1 & G2 & G3 & d' & G4 & G5).
    repeat split; [assumption|congruence|auto|].
    exists (d ++ d'). now rewrite G4, G5, H4, H5, !app_assoc.
Qed.

Lemma open_started (c : conn) : rxthread (snd (open c)) <> Unstarted.
Proof.
  unfold open. destruct (kind c); simpl; destruct (rxthread c) eqn:E; simpl;
    rewrite ?E; discriminate.
Qed.

Lemma open_again (c : conn) :
  rxthread c <> Unstarted ->
  fst (open c) = Raise (RuntimeError "threads can only be started once") /\
  opened (snd (open c)) = opened c /\ exit_requested (snd (open c)) = false.
Proof.
  intros H. unfold open.
  destruct (kind c); simpl; destruct (rxthread c) eqn:E; simpl; auto;
    now destruct H.
Qed.

Lemma close_rxthread (c : conn) : rxthread (close c) = rxthread c.
Proof. unfold close; simpl. now destruct (kind c). Qed.

(** ** The other properties *)

(** C3, amended.  On a connection that is not open (never opened, or
    closed), [wait_frame] returns [None] or raises [RuntimeError] according
    to [exception] and leaves the connection, hence the transport, as it
    was.  [send] is not guarded: the payload goes to the transport's [send]
    whatever the state. *)
Theorem not_open_contract (s : sys) (t : nat) (ex : bool) (obj : pyobj) :
  main s = Ready -> opened (con s) = false ->
  step (Call (WaitFrame t ex)) s =
    returns (WaitFrame t ex)
      (if ex then Raise (RuntimeError "Connection is not opened") else Return VNone)
      (con s) s /\
  step (Call (Send obj)) s = returns (Send obj) (Return VNone) (send obj (con s)) s /\
  calls (send obj (con s)) = calls (con s) ++ [SendCall (send_payload obj)].
Proof.
  intros Hm Ho. split; [|split].
  - cbn [step]. now apply call_wait_closed.
  - cbn [step]. unfold call. now rewrite Hm.
  - reflexivity.
Qed.

(** C4, amended.  One turn of the receive loop's body appends what [recv]
    returned to the tail of the queue exactly when it is not [None], an
    empty byte string included, and appends nothing when [recv] returned
    [None], timed out or failed; no other move of the machine appends
    anything, so that a datum is queued once, behind those received
    before it. *)
Theorem rxthread_task_pushes (r : recv_result) (e : event) (s : sys) :
  rxthread (con s) = InRecv ->
  rxqueue (con (step (RxRecv r) s)) =
    rxqueue (con s) ++
    match r with
    | RecvData (Some d) => [d]
    | _ => []
    end /\
  received (con (step (RxRecv r) s)) =
    received (con s) ++
    match r with
    | RecvData (Some d) => [d]
    | _ => []
    end /\
  ((forall r', e <> RxRecv r') ->
   exists k, rxqueue (con (step e s)) = skipn k (rxqueue (con s))).
Proof.
  intros Ht. cbn [step blocks con].
  rewrite body_rxqueue, body_received. unfold pushed. rewrite Ht.
  repeat split; try (now destruct r as [[d|]| |]).
  apply step_no_push.
Qed.


(** C6.  Whatever the receive thread did while the connection was open,
    [open] after [open] and [close] raises [RuntimeError]: the thread
    object made by the constructor cannot be started again.  [opened]
    stays false, and the queue is the old one, with every frame that was
    in it when [close] was called. *)
Theorem reopen_raises (c : conn) (sched : list event) :
  forallb no_call sched = true ->
  let s1 := run (Call Open :: sched) (start c) in
  let s2 := run [Call Close; Call Open] s1 in
  (exists r, history s2 =
     [(Open, r); (Close, Return VNone);
      (Open, Raise (RuntimeError "threads can only be started once"))]) /\
  opened (con s2) = false /\
  rxqueue (con s2) = rxqueue (con s1).
Proof.
  intros Hc s1 s2.
  set (s0 := step (Call Open) (start c)).
  assert (H0 : main s0 = Ready /\ rxthread (con s0) <> Unstarted /\
               exists r, history s0 = [(Open, r)]).
  { unfold s0. cbn [step]. unfold call. cbn [start main con history].
    pose proof (open_started c) as Hs.
    destruct (open c) as [r c']. cbn [returns main con history].
    repeat split; [exact Hs|now exists r]. }
  destruct H0 as (Hm0 & Ht0 & r & Hh0).
  destruct (ready_env sched s0 Hm0 Hc) as (Hm1 & Hh1 & Ht1 & _).
  change (run sched s0) with s1 in Hm1, Hh1, Ht1.
  specialize (Ht1 Ht0).
  assert (E : s2 = step (Call Open) (returns Close (Return VNone) (close (con s1)) s1)).
  { unfold s2. cbn [run step]. unfold call at 2. now rewrite Hm1. }
  rewrite E. cbn [step]. unfold call. cbn [returns main con history].
  destruct (open_again (close (con s1))) as (O1 & O2 & O3).
  { now rewrite close_rxthread. }
  pose proof (open_rxqueue (close (con s1))) as Oq.
  destruct (open (close (con s1))) as [r' c']. simpl in O1, O2, O3, Oq.
  cbn [returns main con history]. subst r'.
  split; [|split].
  - exists r. now rewrite Hh1, Hh0.
  - exact O2.
  - rewrite Oq. apply (close_rxqueue (con s1)).
Qed.

(** C9, amended.  [wait_frame] called without [exception] and with a
    timeout that is not negative never raises, whatever the state: in
    every run, each such call that completed returned a frame or [None].
    It returns [None] at once when the connection is not open, the head of
    the queue at once when there is one, and [None] again when nothing was
    queued and the timeout has passed: the caller gets the same value for
    "not open" and for "timed out".  With a negative timeout the call
    ends as any other on a connection that is not open, with [None]
    here, and raises [ValueError] on an open one, whatever is queued and
    whatever [exception] is; the connection is left as it was. *)
Theorem wait_frame_never_raises (s : sys) (sched : list event) (t : nat)
    (p : positive) :
  (exists h, history (run sched s) = history s ++ h /\
     Forall (fun x => forall t', fst x = WaitFrame t' false ->
               snd x = Return VNone \/ exists f, snd x = Return (VBytes f)) h) /\
  (main s = Ready ->
   (opened (con s) = false ->
    step (Call (WaitFrame t false)) s =
      returns (WaitFrame t false) (Return VNone) (con s) s) /\
   (opened (con s) = true ->
    forall f q, rxqueue (con s) = f :: q ->
      step (Call (WaitFrame t false)) s =
        returns (WaitFrame t false) (Return (VBytes f)) (set_rxqueue q (con s)) s) /\
   (opened (con s) = true -> rxqueue (con s) = [] ->
    forall after,
      forallb no_call after = true -> forallb no_frame after = true ->
      t <= ticks after ->
      let s' := run (Call (WaitFrame t false) :: after ++ [Resume]) s in
      main s' = Ready /\
      history s' = history s ++ [(WaitFrame t false, Return VNone)]) /\
   (opened (con s) = false ->
    forall ex,
      step (Call (WaitFrameNegative p ex)) s =
        returns (WaitFrameNegative p ex)
          (if ex then Raise (RuntimeError "Connection is not opened")
           else Return VNone) (con s) s) /\
   (opened (con s) = true ->
    forall ex,
      step (Call (WaitFrameNegative p ex)) s =
        returns (WaitFrameNegative p ex)
          (Raise (ValueError "'timeout' must be a non-negative number")) (con s) s)).
Proof.
  split.
  - destruct (run_history sched s) as (h & Hh & Hf). now exists h.
  - intros Hm. split; [|split; [|split; [|split]]].
    + intros Ho. cbn [step]. now rewrite call_wait_closed.
    + intros Ho f q Hq. now apply call_wait_item.
    + intros Ho Hq after Hc Hf Ht s'.
      destruct (call_wait_idle s t false after) as (_ & W & _); try assumption.
      exact (W Ht).
    + intros Ho ex. cbn [step]. unfold call. rewrite Hm.
      destruct (wait_negative_closed p ex (con s) Ho) as (r & E & R).
      now rewrite E, R.
    + intros Ho ex. cbn [step]. unfold call. rewrite Hm.
      now rewrite (wait_negative_open p ex (con s) Ho).
Qed.

(** C10, amended.  [send] transmits [obj.get_payload()] when [obj] is a
    [Request] or a [Response], and [obj] itself when it is a [bytes]
    object: this payload, unchanged, is the one argument of the one call
    made on the transport, and nothing else of the connection changes.
    With an object that is not bytes-like, [send] raises [TypeError]
    before any call on the transport: nothing is transmitted and the
    connection is left as it was. *)
Theorem send_transmits (obj : pyobj) (o : pyother) (c : conn) :
  let payload :=
    match obj with
    | ARequest r => Request_get_payload r
    | AResponse r => Response_get_payload r
    | ABytes b => b
    end in
  calls (send obj c) = calls c ++ [SendCall payload] /\
  sent (send obj c) = sent c ++ [payload] /\
  rxqueue (send obj c) = rxqueue c /\ opened (send obj c) = opened c /\
  exit_requested (send obj c) = exit_requested c /\
  rxthread (send obj c) = rxthread c /\ bound (send obj c) = bound c /\
  con (step (Call (Send obj)) (start c)) = send obj c /\
  history (step (Call (Send obj)) (start c)) = [(Send obj, Return VNone)] /\
  con (step (Call (SendOther o)) (start c)) = c /\
  history (step (Call (SendOther o)) (start c)) =
    [(SendOther o,
      Raise (TypeError match o with
                       | PyNone => "object of type 'NoneType' has no len()"
                       | PyInt _ => "object of type 'int' has no len()"
                       | PyStr _ => "a bytes-like object is required, not 'str'"
                       end))].
Proof.
  simpl. unfold send, specific_send, sock_send, sent, transport; simpl.
  rewrite flat_map_app. simpl. destruct obj, o; auto 12.
Qed.

(** * Further properties *)

(** ** What one move does to the history *)

Lemma resume_entry (s : sys) :
  history (resume s) = history s \/
  (exists t rem ex r, main s = InGet t rem ex /\
                      history (resume s) = history s ++ [(WaitFrame t ex, r)]) \/
  (main s = InDrain /\
   history (resume s) = history s ++ [(EmptyRxqueue, Return VNone)]).
Proof.
  destruct (main s) as [|t rem ex|] eqn:Em.
  - left. unfold resume. now rewrite Em.
  - rewrite (resume_get s t rem ex Em).
    destruct (rxqueue (con s)) as [|f q].
    + destruct (rem =? 0); [|now left]. right; left. now eexists t, rem, ex, _.
    + right; left. now eexists t, rem, ex, _.
  - unfold resume. rewrite Em. destruct (rxqueue (con s)); [|now left].
    right; right. now split.
Qed.

Lemma resume_rxthread (s : sys) : rxthread (con (resume s)) = rxthread (con s).
Proof. destruct (resume_con s) as [E|(f & q & _ & E)]; now rewrite E. Qed.

Lemma resume_calls (s : sys) : calls (con (resume s)) = calls (con s).
Proof. destruct (resume_con s) as [E|(f & q & _ & E)]; now rewrite E. Qed.

Lemma resume_exit_requested (s : sys) :
  exit_requested (con (resume s)) = exit_requested (con s).
Proof. destruct (resume_con s) as [E|(f & q & _ & E)]; now rewrite E. Qed.

Lemma tick_con (s : sys) : con (tick s) = con s /\ history (tick s) = history s.
Proof. unfold tick. now destruct (main s). Qed.

(** ** [open] returns at most once *)

Lemma opens_returned_app (h : list (action * result value))
    (x : action * result value) :
  opens_returned (h ++ [x]) = opens_returned h + (if is_opening x then 1 else 0).
Proof.
  unfold opens_returned. rewrite filter_app, length_app. simpl.
  destruct (is_opening x); simpl; lia.
Qed.

Lemma resume_opens (s : sys) :
  opens_returned (history (resume s)) = opens_returned (history s).
Proof.
  destruct (resume_entry s) as [E|[(t & rem & ex & r & _ & E)|(_ & E)]]; rewrite E;
    rewrite ?opens_returned_app; simpl; lia.
Qed.

Lemma open_starts (c : conn) :
  (if is_opening (@Open, fst (open c)) then 1 else 0) + starts_left (snd (open c))
  = starts_left c.
Proof.
  unfold open, starts_left.
  destruct (kind c); simpl; destruct (rxthread c) eqn:E; simpl; now rewrite ?E.
Qed.

Lemma while_starts (c : conn) : starts_left (rxthread_task_while c) = starts_left c.
Proof.
  unfold starts_left, rxthread_task_while.
  destruct (rxthread c) eqn:E; simpl; rewrite ?E; try reflexivity.
  now destruct (exit_requested c).
Qed.

Lemma body_starts (r : recv_result) (c : conn) :
  starts_left (rxthread_task_body r c) = starts_left c.
Proof.
  unfold starts_left, rxthread_task_body.
  destruct (rxthread c) eqn:E; simpl; now rewrite ?E.
Qed.

Lemma step_opens (e : event) (s : sys) :
  opens_returned (history (step e s)) + starts_left (con (step e s)) =
  opens_returned (history s) + starts_left (con s).
Proof.
  destruct e as [a| | | |r]; cbn [step].
  - unfold call. destruct (main s) eqn:Em; try reflexivity.
    destruct a as [| |obj|t ex| | |o|p px].
    + pose proof (open_starts (con s)) as Ho.
      destruct (open (con s)) as [r c']. cbn [returns con history].
      rewrite opens_returned_app. destruct r; simpl in *; lia.
    + cbn [returns con history]. rewrite opens_returned_app. simpl.
      unfold starts_left. rewrite close_rxthread. lia.
    + cbn [returns con history]. rewrite opens_returned_app.
      unfold starts_left, send, specific_send, sock_send. simpl. lia.
    + destruct (specific_wait_frame_guard ex (con s)).
      * cbn [returns con history]. rewrite opens_returned_app. simpl. lia.
      * rewrite resume_opens. unfold starts_left. now rewrite resume_rxthread.
    + rewrite resume_opens. unfold starts_left. now rewrite resume_rxthread.
    + cbn [returns con history]. rewrite opens_returned_app. simpl. lia.
    + refused_call. cbn [returns con history]. rewrite opens_returned_app.
      simpl. lia.
    + refused_call. cbn [returns con history]. rewrite opens_returned_app.
      simpl. lia.
  - rewrite resume_opens. unfold starts_left. now rewrite resume_rxthread.
  - destruct (tick_con s) as [E1 E2]. now rewrite E1, E2.
  - cbn [blocks con history]. now rewrite while_starts.
  - cbn [blocks con history]. now rewrite body_starts.
Qed.

Lemma run_opens (sched : list event) (s : sys) :
  opens_returned (history (run sched s)) + starts_left (con (run sched s)) =
  opens_returned (history s) + starts_left (con s).
Proof.
  revert s. induction sched as [|e sched IH]; intros s; simpl; [reflexivity|].
  now rewrite IH, step_opens.
Qed.

(** X1.  In every run on a connection object, whatever the caller and the
    receive thread do, [open] returns normally at most once: the count of
    [open] calls that returned plus the starts the thread object still
    allows never changes.  On an object whose thread was started before, no
    [open] ever returns. *)
Theorem open_returns_once (c : conn) (sched : list event) :
  opens_returned (history (run sched (start c))) +
    starts_left (con (run sched (start c))) = starts_left c /\
  opens_returned (history (run sched (start c))) <= 1 /\
  (rxthread c <> Unstarted ->
   opens_returned (history (run sched (start c))) = 0).
Proof.
  pose proof (run_opens sched (start c)) as H.
  cbn [start con history] in H. change (opens_returned []) with 0 in H.
  split; [exact H|]. unfold starts_left in H at 2. split.
  - destruct (rxthread c); lia.
  - intros Hn. destruct (rxthread c); try lia. now destruct Hn.
Qed.

(** ** A connection that is not open *)

Lemma refused_other (a : action) (r : result value) :
  (forall t ex, a <> WaitFrame t ex) -> refused (a, r).
Proof.
  intros Ha. split.
  - destruct a; try reflexivity. now destruct (Ha timeout exception).
  - intros t ex H. simpl in H. now destruct (Ha t ex).
Qed.

Lemma refused_wait (t : nat) (ex : bool) : refused (WaitFrame t ex, not_open ex).
Proof.
  split.
  - now destruct ex.
  - intros t' ex' H. simpl in H. injection H as _ <-. reflexivity.
Qed.

Lemma resume_not_waiting (s : sys) :
  not_waiting s ->
  not_waiting (resume s) /\
  (history (resume s) = history s \/
   history (resume s) = history s ++ [(EmptyRxqueue, Return VNone)]).
Proof.
  intros [Hm|Hm]; unfold resume; rewrite Hm.
  - split; [now left|now left].
  - destruct (rxqueue (con s)); cbn [returns blocks main history].
    + split; [now left|now right].
    + split; [now right|now left].
Qed.

(** One move on a connection that is not open, when [open] cannot succeed
    or is not called: the connection stays not open and the call that
    completes, if any, hands no frame over. *)
Lemma refused_step (e : event) (s : sys) :
  opened (con s) = false -> not_waiting s ->
  rxthread (con s) <> Unstarted \/ no_open e = true ->
  opened (con (step e s)) = false /\ not_waiting (step e s) /\
  (history (step e s) = history s \/
   exists x, history (step e s) = history s ++ [x] /\ refused x).
Proof.
  intros Ho Hw Hn.
  assert (Hres : forall s', opened (con s') = false -> not_waiting s' ->
            opened (con (resume s')) = false /\ not_waiting (resume s') /\
            (history (resume s') = history s' \/
             exists x, history (resume s') = history s' ++ [x] /\ refused x)).
  { intros s' Ho' Hw'. destruct (resume_flags s') as (F & _).
    destruct (resume_not_waiting s' Hw') as (W & [H|H]).
    - repeat split; [congruence|exact W|now left].
    - repeat split; [congruence|exact W|]. right. eexists. split; [exact H|].
      apply refused_other. discriminate. }
  destruct e as [a| | | |r]; cbn [step].
  - unfold call. destruct Hw as [Hm|Hm]; rewrite Hm.
    + destruct a as [| |obj|t ex| | |o|p px].
      * destruct Hn as [Hn|Hn]; [|discriminate Hn].
        destruct (open_again (con s) Hn) as (O1 & O2 & _).
        destruct (open (con s)) as [r c']. simpl in O1, O2.
        cbn [returns con main history].
        repeat split; [congruence|now left|]. right. eexists. split; [reflexivity|].
        apply refused_other. discriminate.
      * cbn [returns con main history].
        split; [reflexivity|]. split; [now left|].
        right. eexists. split; [reflexivity|]. apply refused_other. discriminate.
      * cbn [returns con main history].
        repeat split; [exact Ho|now left|].
        right. eexists. split; [reflexivity|]. apply refused_other. discriminate.
      * unfold specific_wait_frame_guard. rewrite Ho. cbn [negb].
        replace (wait_frame_result
                   match (if ex then Some (Raise (RuntimeError "Connection is not opened"))
                          else Some (Return None)) with
                   | Some r => r
                   | None => Return None
                   end) with (not_open ex) by now destruct ex.
        destruct ex; cbn [returns con main history];
          (repeat split; [exact Ho|now left|]); right; eexists;
          (split; [reflexivity|]).
        -- apply (refused_wait t true).
        -- apply (refused_wait t false).
      * apply (Hres (blocks InDrain (con s) s)); [exact Ho|now right].
      * cbn [returns con main history].
        repeat split; [exact Ho|now left|].
        right. eexists. split; [reflexivity|]. apply refused_other. discriminate.
      * refused_call. cbn [returns con main history].
        repeat split; [exact Ho|now left|].
        right. eexists. split; [reflexivity|]. apply refused_other. discriminate.
      * refused_call. cbn [returns con main history].
        repeat split; [exact Ho|now left|].
        right. eexists. split; [reflexivity|]. apply refused_other. discriminate.
    + repeat split; [exact Ho|now right|now left].
  - now apply Hres.
  - destruct (tick_con s) as [E1 E2].
    replace (tick s) with s; [repeat split; auto|].
    unfold tick. destruct Hw as [Hm|Hm]; now rewrite Hm.
  - cbn [blocks con main history]. rewrite while_opened.
    repeat split; [exact Ho|exact Hw|now left].
  - cbn [blocks con main history]. rewrite body_opened.
    repeat split; [exact Ho|exact Hw|now left].
Qed.

Lemma step_started (e : event) (s : sys) :
  rxthread (con s) <> Unstarted -> rxthread (con (step e s)) <> Unstarted.
Proof.
  intros H. destruct e as [a| | | |r]; cbn [step].
  - unfold call. destruct (main s); try assumption.
    destruct a as [| |obj|t ex| | |o|p px]; refused_call; cbn [returns con];
      try assumption.
    + pose proof (open_started (con s)) as Ho.
      destruct (open (con s)) as [r c']. exact Ho.
    + now rewrite close_rxthread.
    + destruct (specific_wait_frame_guard ex (con s)); cbn [returns con];
        [assumption|]. now rewrite resume_rxthread.
    + now rewrite resume_rxthread.
  - now rewrite resume_rxthread.
  - destruct (tick_con s) as [E _]. now rewrite E.
  - cbn [blocks con]. now apply while_started.
  - cbn [blocks con]. now apply body_started.
Qed.

Lemma refused_run (sched : list event) (s : sys) :
  opened (con s) = false -> not_waiting s ->
  rxthread (con s) <> Unstarted ->
  opened (con (run sched s)) = false /\ not_waiting (run sched s) /\
  exists h, history (run sched s) = history s ++ h /\ Forall refused h.
Proof.
  revert s. induction sched as [|e sched IH]; intros s Ho Hw Hn; simpl.
  - repeat split; try assumption. exists []. now rewrite app_nil_r.
  - destruct (refused_step e s Ho Hw (or_introl Hn)) as (Ho' & Hw' & Hh).
    destruct (IH (step e s) Ho' Hw' (step_started e s Hn)) as (O & W & h & H & F).
    repeat split; try assumption.
    destruct Hh as [E|(x & E & Hx)]; rewrite E in H.
    + now exists h.
    + exists (x :: h). split; [now rewrite H, <- app_assoc|now constructor].
Qed.

(** X2.  A connection that has been opened and is closed stays closed:
    whatever is called afterwards, [open] included, and whatever the receive
    thread does, [opened] stays false, no [wait_frame] returns a frame, and
    every [wait_frame] gives [None] or raises [RuntimeError] according to
    [exception]. *)
Theorem closed_for_good (s : sys) (sched : list event) :
  rxthread (con s) <> Unstarted -> opened (con s) = false ->
  main s = Ready \/ main s = InDrain ->
  opened (con (run sched s)) = false /\
  exists h,
    history (run sched s) = history s ++ h /\
    returned_frames h = [] /\
    Forall (fun x => forall t ex, fst x = WaitFrame t ex ->
              snd x = if ex then Raise (RuntimeError "Connection is not opened")
                      else Return VNone) h.
Proof.
  intros Hn Ho Hw.
  destruct (refused_run sched s Ho Hw Hn) as (O & _ & h & H & F).
  split; [exact O|]. exists h. split; [exact H|]. split.
  - clear H. induction F as [|x l (Hx & _) _ IH]; [reflexivity|].
    unfold returned_frames in *. simpl. now rewrite Hx, IH.
  - clear H. induction F as [|x l (_ & Hx) _ IH]; constructor; assumption.
Qed.

(** ** A connection that was never opened *)

Lemma close_reads (c : conn) : reads (close c) = reads c.
Proof.
  unfold close, reads; simpl. destruct (kind c); simpl; [reflexivity|].
  rewrite filter_app. simpl. apply app_nil_r.
Qed.

Lemma resume_reads (s : sys) : reads (con (resume s)) = reads (con s).
Proof. unfold reads. now rewrite resume_calls. Qed.

Lemma resume_received (s : sys) : received (con (resume s)) = received (con s).
Proof. unfold received. now rewrite resume_calls. Qed.

(** One move while the thread has not been started and [open] is not
    called: the thread stays unstarted and nothing is read. *)
Lemma unstarted_step (e : event) (s : sys) :
  rxthread (con s) = Unstarted -> no_open e = true ->
  rxthread (con (step e s)) = Unstarted /\
  reads (con (step e s)) = reads (con s) /\
  received (con (step e s)) = received (con s) /\
  exists k, rxqueue (con (step e s)) = skipn k (rxqueue (con s)).
Proof.
  intros Ht He.
  assert (Hq : exists k, rxqueue (con (step e s)) = skipn k (rxqueue (con s))).
  { destruct e as [a| | | |r]; try (apply step_no_push; discriminate).
    exists 0. cbn [step blocks con]. unfold rxthread_task_body. now rewrite Ht. }
  split; [|split; [|split; [|exact Hq]]]; clear Hq;
    destruct e as [a| | | |r]; cbn [step].
  - unfold call. destruct (main s); try assumption.
    destruct a as [| |obj|t ex| | |o|p px]; try discriminate He; refused_call;
      cbn [returns con];
      try assumption.
    + now rewrite close_rxthread.
    + destruct (specific_wait_frame_guard ex (con s)); cbn [returns con];
        [assumption|]. now rewrite resume_rxthread.
    + now rewrite resume_rxthread.
  - now rewrite resume_rxthread.
  - destruct (tick_con s) as [E _]. now rewrite E.
  - cbn [blocks con]. unfold rxthread_task_while. now rewrite Ht.
  - cbn [blocks con]. unfold rxthread_task_body. now rewrite Ht.
  - unfold call. destruct (main s); try reflexivity.
    destruct a as [| |obj|t ex| | |o|p px]; try discriminate He; refused_call;
      cbn [returns con];
      try reflexivity.
    + apply close_reads.
    + apply (reads_transport (SendCall (send_payload obj)) (bound (con s)) (con s)).
      reflexivity.
    + destruct (specific_wait_frame_guard ex (con s)); cbn [returns con];
        [reflexivity|]. exact (resume_reads (blocks (InGet t t ex) (con s) s)).
    + exact (resume_reads (blocks InDrain (con s) s)).
  - apply resume_reads.
  - destruct (tick_con s) as [E _]. now rewrite E.
  - cbn [blocks con]. unfold rxthread_task_while. now rewrite Ht.
  - cbn [blocks con]. unfold rxthread_task_body. now rewrite Ht.
  - unfold call. destruct (main s); try reflexivity.
    destruct a as [| |obj|t ex| | |o|p px]; try discriminate He; refused_call;
      cbn [returns con];
      try reflexivity.
    + apply close_received.
    + unfold send, specific_send, sock_send. rewrite received_transport.
      apply app_nil_r.
    + destruct (specific_wait_frame_guard ex (con s)); cbn [returns con];
        [reflexivity|]. exact (resume_received (blocks (InGet t t ex) (con s) s)).
    + exact (resume_received (blocks InDrain (con s) s)).
  - apply resume_received.
  - destruct (tick_con s) as [E _]. now rewrite E.
  - cbn [blocks con]. unfold rxthread_task_while. now rewrite Ht.
  - cbn [blocks con]. unfold rxthread_task_body. now rewrite Ht.
Qed.

Lemma unopened_run (sched : list event) (s : sys) :
  rxthread (con s) = Unstarted -> opened (con s) = false -> not_waiting s ->
  forallb no_open sched = true ->
  (rxthread (con (run sched s)) = Unstarted /\
   opened (con (run sched s)) = false /\
   reads (con (run sched s)) = reads (con s) /\
   received (con (run sched s)) = received (con s)) /\
  (exists k, rxqueue (con (run sched s)) = skipn k (rxqueue (con s))) /\
  exists h, history (run sched s) = history s ++ h /\ Forall refused h.
Proof.
  revert s. induction sched as [|e sched IH]; intros s Ht Ho Hw Hs; simpl.
  - repeat split; try assumption; [now exists 0|].
    exists []. now rewrite app_nil_r.
  - simpl in Hs. apply andb_prop in Hs. destruct Hs as [He Hs].
    destruct (unstarted_step e s Ht He) as (T & R & D & k & Q).
    destruct (refused_step e s Ho Hw (or_intror He)) as (Ho' & Hw' & Hh).
    destruct (IH (step e s) T Ho' Hw' Hs)
      as ((T' & O' & R' & D') & (k' & Q') & h & H & F).
    split; [repeat split; congruence|]. split.
    + exists (k' + k). now rewrite Q', Q, skipn_skipn.
    + destruct Hh as [E|(x & E & Hx)]; rewrite E in H.
      * now exists h.
      * exists (x :: h). split; [now rewrite H, <- app_assoc|now constructor].
Qed.

Lemma refused_frames (h : list (action * result value)) :
  Forall refused h ->
  returned_frames h = [] /\
  Forall (fun x => forall t ex, fst x = WaitFrame t ex -> snd x = not_open ex) h.
Proof.
  intros F. split.
  - induction F as [|x l (Hx & _) _ IH]; [reflexivity|].
    unfold returned_frames in *. simpl. now rewrite Hx, IH.
  - induction F as [|x l (_ & Hx) _ IH]; constructor; assumption.
Qed.

Lemma with_block_no_open (body : list event) :
  forallb no_open body = true -> forallb no_open (with_block body) = true.
Proof. intros H. unfold with_block. now rewrite forallb_app, H. Qed.

(** X3.  Before [open] nothing is received.  On a connection object that
    was never opened, as long as [open] is not called: the receive thread
    does not run, no [recv] is made, [opened] stays false, every
    [wait_frame] gives [None] or raises [RuntimeError], and no frame is
    returned.  This is what happens inside [with conn: ...] when [open] is
    left out: [__enter__] returns [self] without opening, and at the end
    [__exit__] closes. *)
Theorem never_opened (c : conn) (body : list event) :
  rxthread c = Unstarted -> opened c = false ->
  forallb no_open body = true ->
  let s1 := run body (start c) in
  let s2 := run (with_block body) (start c) in
  (rxthread (con s1) = Unstarted /\ opened (con s1) = false /\
   reads (con s1) = reads c /\ received (con s1) = received c /\
   (exists k, rxqueue (con s1) = skipn k (rxqueue c)) /\
   returned_frames (history s1) = [] /\
   Forall (fun x => forall t ex, fst x = WaitFrame t ex ->
             snd x = if ex then Raise (RuntimeError "Connection is not opened")
                     else Return VNone) (history s1)) /\
  (rxthread (con s2) = Unstarted /\ opened (con s2) = false /\
   reads (con s2) = reads c /\ returned_frames (history s2) = []) /\
  snd (__enter__ c) = c /\
  (main s1 = Ready ->
   s2 = returns Close (Return VNone) (snd (__exit__ (con s1))) s1).
Proof.
  intros Ht Ho Hs s1 s2.
  destruct (unopened_run body (start c) Ht Ho (or_introl eq_refl) Hs)
    as ((T & O & R & D) & Q & h & H & F).
  destruct (unopened_run (with_block body) (start c) Ht Ho (or_introl eq_refl)
              (with_block_no_open body Hs))
    as ((T2 & O2 & R2 & _) & _ & h2 & H2 & F2).
  fold s1 in T, O, R, D, Q, H. fold s2 in T2, O2, R2, H2.
  cbn [start con history] in *. simpl in H, H2. subst h h2.
  destruct (refused_frames _ F) as (F1 & F1').
  destruct (refused_frames _ F2) as (F3 & _).
  split; [now repeat split|]. split; [now repeat split|].
  split; [reflexivity|].
  intros Hm. unfold s2, with_block. rewrite run_app. fold s1.
  cbn [run step]. unfold call. now rewrite Hm.
Qed.

(** ** What is sent *)

Lemma sent_transport (call : sock_call) (b : bool) (c : conn) :
  sent (transport call b c) = sent c ++ sent_payload call.
Proof.
  unfold sent, transport; simpl. rewrite flat_map_app. simpl.
  now rewrite app_nil_r.
Qed.

Lemma open_sent (c : conn) : sent (snd (open c)) = sent c.
Proof.
  unfold open, sent.
  destruct (kind c); simpl; destruct (rxthread c); simpl;
    rewrite ?flat_map_app; simpl; now rewrite ?app_nil_r.
Qed.

Lemma close_sent (c : conn) : sent (close c) = sent c.
Proof.
  unfold close, sent; simpl.
  destruct (kind c); simpl; rewrite ?flat_map_app; simpl; now rewrite ?app_nil_r.
Qed.

Lemma resume_sent (s : sys) : sent (con (resume s)) = sent (con s).
Proof. unfold sent. now rewrite resume_calls. Qed.

Lemma while_sent (c : conn) : sent (rxthread_task_while c) = sent c.
Proof. unfold sent. now rewrite while_calls. Qed.

Lemma body_sent (r : recv_result) (c : conn) : sent (rxthread_task_body r c) = sent c.
Proof.
  unfold rxthread_task_body. destruct (rxthread c); try reflexivity.
  destruct r as [[d|]| |]; unfold sent; simpl; rewrite flat_map_app; simpl;
    now rewrite app_nil_r.
Qed.

Lemma sends_app (h1 h2 : list (action * result value)) :
  sends (h1 ++ h2) = sends h1 ++ sends h2.
Proof. unfold sends. apply flat_map_app. Qed.

Lemma resume_sends (s : sys) :
  exists h, history (resume s) = history s ++ h /\ sends h = [].
Proof.
  destruct (resume_entry s) as [E|[(t & rem & ex & r & _ & E)|(_ & E)]].
  - exists []. now rewrite app_nil_r.
  - eexists. split; [exact E|reflexivity].
  - eexists. split; [exact E|reflexivity].
Qed.

Lemma step_sends (e : event) (s : sys) :
  exists h, history (step e s) = history s ++ h /\
            sent (con (step e s)) = sent (con s) ++ sends h.
Proof.
  assert (Hres : forall s', exists h, history (resume s') = history s' ++ h /\
                    sent (con (resume s')) = sent (con s') ++ sends h).
  { intros s'. destruct (resume_sends s') as (h & H & Hs).
    exists h. split; [exact H|]. now rewrite resume_sent, Hs, app_nil_r. }
  destruct e as [a| | | |r]; cbn [step].
  - unfold call. destruct (main s) eqn:Em;
      try (exists []; now rewrite !app_nil_r).
    destruct a as [| |obj|t ex| | |o|p px].
    + pose proof (open_sent (con s)) as Ho.
      destruct (open (con s)) as [r c']. simpl in Ho. eexists.
      split; [reflexivity|]. cbn [returns con]. rewrite Ho.
      destruct r; simpl; now rewrite app_nil_r.
    + eexists. split; [reflexivity|]. cbn [returns con].
      rewrite close_sent. simpl. now rewrite app_nil_r.
    + eexists. split; [reflexivity|]. cbn [returns con].
      unfold send, specific_send, sock_send. rewrite sent_transport.
      simpl. reflexivity.
    + destruct (specific_wait_frame_guard ex (con s)).
      * eexists. split; [reflexivity|]. cbn [returns con]. simpl.
        now rewrite app_nil_r.
      * apply (Hres (blocks (InGet t t ex) (con s) s)).
    + apply (Hres (blocks InDrain (con s) s)).
    + eexists. split; [reflexivity|]. cbn [returns con]. simpl.
      now rewrite app_nil_r.
    + refused_call. eexists. split; [reflexivity|]. cbn [returns con]. simpl.
      now rewrite app_nil_r.
    + refused_call. eexists. split; [reflexivity|]. cbn [returns con]. simpl.
      now rewrite app_nil_r.
  - apply Hres.
  - destruct (tick_con s) as [E1 E2]. exists []. now rewrite E1, E2, !app_nil_r.
  - exists []. cbn [blocks con history]. now rewrite while_sent, !app_nil_r.
  - exists []. cbn [blocks con history]. now rewrite body_sent, !app_nil_r.
Qed.

Lemma run_sends (sched : list event) (s : sys) :
  exists h, history (run sched s) = history s ++ h /\
            sent (con (run sched s)) = sent (con s) ++ sends h.
Proof.
  revert s. induction sched as [|e sched IH]; intros s; simpl.
  - exists []. now rewrite !app_nil_r.
  - destruct (step_sends e s) as (h1 & H1 & S1).
    destruct (IH (step e s)) as (h2 & H2 & S2).
    exists (h1 ++ h2). now rewrite H2, S2, H1, S1, sends_app, !app_assoc.
Qed.

Lemma send_calls_run (objs : list pyobj) (s : sys) :
  main s = Ready ->
  main (run (map (fun o => Call (Send o)) objs) s) = Ready /\
  sent (con (run (map (fun o => Call (Send o)) objs) s)) =
    sent (con s) ++ map send_payload objs.
Proof.
  revert s. induction objs as [|o objs IH]; intros s Hm; simpl.
  - split; [assumption|now rewrite app_nil_r].
  - unfold call. rewrite Hm.
    destruct (IH (returns (Send o) (Return VNone) (send o (con s)) s) eq_refl)
      as (H1 & H2).
    split; [exact H1|]. rewrite H2. cbn [returns con].
    unfold send, specific_send, sock_send. rewrite sent_transport. simpl.
    now rewrite <- app_assoc.
Qed.

(** X4.  What reaches the transport's [send] is exactly what the caller
    sent: in every run the payloads transmitted are the payloads of the
    completed [send] calls, each once and in call order; the receive
    thread, [open], [close], [wait_frame] and [empty_rxqueue] transmit
    nothing.  A row of [send] calls transmits the payloads in the order of
    the calls. *)
Theorem sends_in_order (s : sys) (sched : list event) (objs : list pyobj) :
  (exists h, history (run sched s) = history s ++ h /\
             sent (con (run sched s)) = sent (con s) ++ sends h) /\
  (main s = Ready ->
   main (run (map (fun o => Call (Send o)) objs) s) = Ready /\
   sent (con (run (map (fun o => Call (Send o)) objs) s)) =
     sent (con s) ++
     map (fun o => match o with
                   | ARequest r => Request_get_payload r
                   | AResponse r => Response_get_payload r
                   | ABytes b => b
                   end) objs).
Proof.
  split; [apply run_sends|]. intros Hm. exact (send_calls_run objs s Hm).
Qed.

(** ** [opened] follows the calls *)

Lemma lifecycle_app (h1 h2 : list (action * result value)) (b : bool) :
  lifecycle (h1 ++ h2) b = lifecycle h2 (lifecycle h1 b).
Proof. unfold lifecycle. apply fold_left_app. Qed.

Lemma open_lifecycle (c : conn) :
  opened (snd (open c)) = lifecycle_entry (opened c) (@Open, fst (open c)).
Proof.
  unfold open. destruct (kind c); simpl; now destruct (rxthread c).
Qed.

Lemma step_lifecycle (e : event) (s : sys) :
  exists h, history (step e s) = history s ++ h /\
            opened (con (step e s)) = lifecycle h (opened (con s)).
Proof.
  assert (Hres : forall s', exists h, history (resume s') = history s' ++ h /\
                    opened (con (resume s')) = lifecycle h (opened (con s'))).
  { intros s'. destruct (resume_flags s') as (F & _). rewrite F.
    destruct (resume_entry s') as [E|[(t & rem & ex & r & _ & E)|(_ & E)]].
    - exists []. now rewrite app_nil_r.
    - eexists. split; [exact E|reflexivity].
    - eexists. split; [exact E|reflexivity]. }
  destruct e as [a| | | |r]; cbn [step].
  - unfold call. destruct (main s) eqn:Em;
      try (exists []; now rewrite !app_nil_r).
    destruct a as [| |obj|t ex| | |o|p px].
    + pose proof (open_lifecycle (con s)) as Ho.
      destruct (open (con s)) as [r c']. simpl in Ho. eexists.
      split; [reflexivity|]. cbn [returns con]. exact Ho.
    + eexists. split; [reflexivity|]. reflexivity.
    + eexists. split; [reflexivity|]. reflexivity.
    + destruct (specific_wait_frame_guard ex (con s)).
      * eexists. split; [reflexivity|]. reflexivity.
      * apply (Hres (blocks (InGet t t ex) (con s) s)).
    + apply (Hres (blocks InDrain (con s) s)).
    + eexists. split; [reflexivity|]. reflexivity.
    + refused_call. eexists. split; [reflexivity|]. reflexivity.
    + refused_call. eexists. split; [reflexivity|]. reflexivity.
  - apply Hres.
  - destruct (tick_con s) as [E1 E2]. exists []. now rewrite E1, E2, !app_nil_r.
  - exists []. cbn [blocks con history]. now rewrite while_opened, !app_nil_r.
  - exists []. cbn [blocks con history]. now rewrite body_opened, !app_nil_r.
Qed.

(** X5.  [opened] is decided by the calls alone: in every run its value is
    the one set by the last [open] that returned normally (true) or
    [close] (false) among the completed calls, and its initial value when
    there is none.  Nothing the receive thread does, no failed [open], no
    [send], [wait_frame] or [empty_rxqueue] changes it; for the stream
    variant [is_open] is this value. *)
Theorem opened_follows_calls (s : sys) (sched : list event) :
  exists h,
    history (run sched s) = history s ++ h /\
    opened (con (run sched s)) = lifecycle h (opened (con s)) /\
    (kind (con (run sched s)) = Stream ->
     is_open (con (run sched s)) = lifecycle h (opened (con s))).
Proof.
  revert s. induction sched as [|e sched IH]; intros s; simpl.
  - exists []. rewrite app_nil_r. repeat split.
    unfold is_open. now intros ->.
  - destruct (step_lifecycle e s) as (h1 & H1 & L1).
    destruct (IH (step e s)) as (h2 & H2 & L2 & K2).
    exists (h1 ++ h2). rewrite lifecycle_app, <- L1.
    repeat split; [now rewrite H2, H1, app_assoc|exact L2|exact K2].
Qed.

(** ** After the stop request *)

Lemma close_exit_requested (c : conn) : exit_requested (close c) = true.
Proof. unfold close; simpl. now destruct (kind c). Qed.

Lemma close_pending (c : conn) : pending (close c) = pending c.
Proof. unfold pending. now rewrite close_rxthread. Qed.

Lemma length_skipn_le (A : Type) (k : nat) (l : list A) :
  length (skipn k l) <= length l.
Proof. rewrite length_skipn. lia. Qed.

Lemma pushed_length (r : recv_result) (c : conn) :
  length (pushed r c) <= pending c.
Proof.
  unfold pushed, pending. destruct (rxthread c); simpl; try lia.
  destruct r as [[d|]| |]; simpl; lia.
Qed.

(** One move after the stop request, [open] not being called: the request
    stands, and the reads made, the frames received and the frames queued
    grow by at most the [recv] that was in progress. *)
Lemma step_shutdown (e : event) (s : sys) :
  exit_requested (con s) = true -> no_open e = true ->
  exit_requested (con (step e s)) = true /\
  length (reads (con (step e s))) + pending (con (step e s)) <=
    length (reads (con s)) + pending (con s) /\
  length (received (con (step e s))) + pending (con (step e s)) <=
    length (received (con s)) + pending (con s) /\
  length (rxqueue (con (step e s))) + pending (con (step e s)) <=
    length (rxqueue (con s)) + pending (con s).
Proof.
  intros Hx He.
  destruct e as [a| | | |r].
  - (* the caller thread *)
    destruct (step_no_push (Call a) s) as (k & Q); [discriminate|].
    pose proof (length_skipn_le _ k (rxqueue (con s))) as Hk.
    rewrite <- Q in Hk. revert Hk. clear Q. cbn [step]. unfold call.
    destruct (main s); try (intros; repeat split; [assumption|lia..]).
    destruct a as [| |obj|t ex| | |o|p px]; try discriminate He; refused_call;
      cbn [returns con].
    + intros Hk. unfold pending.
      rewrite close_rxthread, close_reads, close_received, close_exit_requested.
      repeat split; lia.
    + intros Hk. unfold send, specific_send, sock_send.
      rewrite received_transport.
      rewrite (reads_transport (SendCall (send_payload obj)) (bound (con s)) (con s))
        by reflexivity.
      unfold pending in *. simpl in *. rewrite app_nil_r.
      repeat split; [assumption|lia..].
    + destruct (specific_wait_frame_guard ex (con s)); cbn [returns con];
        intros Hk; [repeat split; [assumption|lia..]|].
      unfold pending in *.
      rewrite resume_rxthread, resume_exit_requested, resume_reads, resume_received in *.
      cbn [blocks con] in *. repeat split; [assumption|lia..].
    + intros Hk. unfold pending in *.
      rewrite resume_rxthread, resume_exit_requested, resume_reads, resume_received in *.
      cbn [blocks con] in *. repeat split; [assumption|lia..].
    + intros Hk. repeat split; [assumption|lia..].
    + intros Hk. repeat split; [assumption|lia..].
    + intros Hk. repeat split; [assumption|lia..].
  - destruct (step_no_push Resume s) as (k & Q); [discriminate|].
    pose proof (length_skipn_le _ k (rxqueue (con s))) as Hk.
    rewrite <- Q in Hk. cbn [step] in *. unfold pending in *.
    rewrite resume_rxthread, resume_exit_requested, resume_reads, resume_received in *.
    repeat split; [assumption|lia..].
  - cbn [step]. destruct (tick_con s) as [E _]. rewrite E.
    repeat split; [assumption|lia..].
  - cbn [step blocks con].
    unfold reads, received. rewrite while_calls, while_rxqueue.
    unfold rxthread_task_while, pending.
    destruct (rxthread (con s)) eqn:Et; rewrite ?Hx; simpl; rewrite ?Et, ?Hx;
      repeat split; try assumption; try reflexivity; lia.
  - cbn [step blocks con].
    pose proof (pushed_length r (con s)) as Hp.
    rewrite body_rxqueue, body_received, !length_app.
    unfold rxthread_task_body, pending, reads in *.
    destruct (rxthread (con s)) eqn:Et; simpl in *; rewrite ?Et;
      try (repeat split; [assumption|lia..]).
    destruct r as [[d|]| |]; simpl in *; rewrite filter_app, length_app; simpl;
      repeat split; try assumption; try reflexivity; lia.
Qed.

Lemma run_shutdown (sched : list event) (s : sys) :
  exit_requested (con s) = true -> forallb no_open sched = true ->
  exit_requested (con (run sched s)) = true /\
  length (reads (con (run sched s))) + pending (con (run sched s)) <=
    length (reads (con s)) + pending (con s) /\
  length (received (con (run sched s))) + pending (con (run sched s)) <=
    length (received (con s)) + pending (con s) /\
  length (rxqueue (con (run sched s))) + pending (con (run sched s)) <=
    length (rxqueue (con s)) + pending (con s).
Proof.
  revert s. induction sched as [|e sched IH]; intros s Hx Hs; simpl.
  - repeat split; [assumption|lia..].
  - simpl in Hs. apply andb_prop in Hs. destruct Hs as [He Hs].
    destruct (step_shutdown e s Hx He) as (X & A & B & C).
    destruct (IH (step e s) X Hs) as (X' & A' & B' & C').
    repeat split; [assumption|lia..].
Qed.

(** X6.  After [close], as long as [open] is not called again, the receive
    loop winds down: the stop request stands, at most the one [recv] that
    was in progress when [close] was called still completes, so at most one
    more frame is received and queued; and a thread that was at its loop
    test has returned once it has run. *)
Theorem close_winds_down (s : sys) (sched : list event) :
  main s = Ready -> forallb no_open sched = true ->
  let s1 := step (Call Close) s in
  let s2 := run sched s1 in
  exit_requested (con s2) = true /\
  length (reads (con s2)) <= length (reads (con s)) + pending (con s) /\
  length (received (con s2)) <= length (received (con s)) + pending (con s) /\
  length (rxqueue (con s2)) <= length (rxqueue (con s)) + pending (con s) /\
  (rxthread (con s) = AtWhile -> In RxWhile sched ->
   rxthread (con s2) = Finished /\ received (con s2) = received (con s)).
Proof.
  intros Hm Hs s1 s2.
  assert (E : con s1 = close (con s)).
  { unfold s1. cbn [step]. unfold call. now rewrite Hm. }
  assert (Hx : exit_requested (con s1) = true)
    by (rewrite E; apply close_exit_requested).
  destruct (run_shutdown sched s1 Hx Hs) as (X & A & B & C). fold s2 in X, A, B, C.
  rewrite E, close_pending in A, B, C.
  rewrite close_reads in A. rewrite close_received in B. rewrite close_rxqueue in C.
  split; [exact X|]. split; [lia|]. split; [lia|]. split; [lia|].
  intros Ht Hin.
  assert (Hst : stopped (con s1)).
  { split; [exact Hx|]. left. now rewrite E, close_rxthread. }
  split; [now apply run_stops|].
  destruct (run_quiet sched s1 Hs Hst) as (_ & _ & D & _).
  fold s2 in D. now rewrite D, E, close_received.
Qed.

(** ** Nothing is invented *)

Lemma subseq_refl (A : Type) (l : list A) : subseq l l.
Proof. induction l; [apply subseq_nil|now apply subseq_take]. Qed.

Lemma subseq_app_tail (A : Type) (l1 l2 d : list A) :
  subseq l1 l2 -> subseq (l1 ++ d) (l2 ++ d).
Proof.
  induction 1; simpl.
  - apply subseq_refl.
  - now apply subseq_skip.
  - now apply subseq_take.
Qed.

Lemma subseq_trans (A : Type) (l1 l2 l3 : list A) :
  subseq l1 l2 -> subseq l2 l3 -> subseq l1 l3.
Proof.
  intros H12 H23. revert l1 H12.
  induction H23 as [|a l2 l3 H IH|a l2 l3 H IH]; intros l1 H12.
  - exact H12.
  - constructor. now apply IH.
  - inversion H12; subst.
    + apply subseq_skip. now apply IH.
    + apply subseq_take. now apply IH.
Qed.

Lemma subseq_drop (A : Type) (l1 : list A) (a : A) (l2 : list A) :
  subseq (l1 ++ l2) (l1 ++ a :: l2).
Proof.
  induction l1 as [|b l1 IH]; simpl.
  - apply subseq_skip. apply subseq_refl.
  - apply subseq_take. exact IH.
Qed.

Lemma resume_delivered (s : sys) :
  subseq (delivered (resume s)) (delivered s).
Proof.
  destruct (main s) as [|t rem ex|] eqn:Em.
  - unfold resume. rewrite Em. apply subseq_refl.
  - destruct (resume_fifo s) as (_ & H & _); [now rewrite Em|].
    rewrite H. apply subseq_refl.
  - unfold resume, delivered. rewrite Em.
    destruct (rxqueue (con s)) as [|f q] eqn:Eq; cbn [returns blocks con history].
    + rewrite returned_frames_app, Eq. simpl. rewrite !app_nil_r. apply subseq_refl.
    + cbn [set_rxqueue rxqueue]. apply subseq_drop.
Qed.

Lemma step_delivered (e : event) (s : sys) :
  exists d, received (con (step e s)) = received (con s) ++ d /\
            subseq (delivered (step e s)) (delivered s ++ d).
Proof.
  assert (Hres : forall s', exists d,
            received (con (resume s')) = received (con s') ++ d /\
            subseq (delivered (resume s')) (delivered s' ++ d)).
  { intros s'. exists []. rewrite resume_received, !app_nil_r.
    split; [reflexivity|apply resume_delivered]. }
  destruct e as [a| | | |r].
  - destruct (main s) eqn:Em.
    + assert (Hf : no_drain (Call a) = true ->
                exists d, received (con (step (Call a) s)) = received (con s) ++ d /\
                          subseq (delivered (step (Call a) s)) (delivered s ++ d)).
      { intros Ha. destruct (step_fifo (Call a) s) as (_ & d & Hd & Hr);
          [now rewrite Em|exact Ha|].
        exists d. split; [exact Hr|]. rewrite Hd. apply subseq_refl. }
      destruct a as [| |obj|t ex| | |o|p px]; try (apply Hf; reflexivity).
      cbn [step]. unfold call. rewrite Em.
      apply (Hres (blocks InDrain (con s) s)).
    + exists []. cbn [step]. unfold call. rewrite Em, !app_nil_r.
      split; [reflexivity|apply subseq_refl].
    + exists []. cbn [step]. unfold call. rewrite Em, !app_nil_r.
      split; [reflexivity|apply subseq_refl].
  - apply Hres.
  - exists []. cbn [step]. unfold delivered. destruct (tick_con s) as [E1 E2].
    rewrite E1, E2, !app_nil_r. split; [reflexivity|apply subseq_refl].
  - exists []. unfold delivered. cbn [step blocks con history].
    rewrite while_received, while_rxqueue, !app_nil_r.
    split; [reflexivity|apply subseq_refl].
  - exists (pushed r (con s)). unfold delivered. cbn [step blocks con history].
    rewrite body_received, body_rxqueue, app_assoc.
    split; [reflexivity|apply subseq_refl].
Qed.

Lemma run_delivered (sched : list event) (s : sys) :
  subseq (delivered s) (received (con s)) ->
  subseq (delivered (run sched s)) (received (con (run sched s))).
Proof.
  revert s. induction sched as [|e sched IH]; intros s H; simpl; [exact H|].
  apply IH. destruct (step_delivered e s) as (d & Hr & Hd).
  rewrite Hr. apply subseq_trans with (delivered s ++ d); [exact Hd|].
  now apply subseq_app_tail.
Qed.

(** X7.  Nothing is invented, repeated or reordered, whatever is called:
    in every run on a connection whose queue was empty at the start, the
    frames [wait_frame] has returned, followed by the frames still queued,
    are the frames received from the transport so far with some of them
    taken out (those [empty_rxqueue] discarded), in the order of receipt. *)
Theorem frames_come_from_transport (c : conn) (sched : list event) :
  rxqueue c = [] ->
  subseq (returned_frames (history (run sched (start c))) ++
          rxqueue (con (run sched (start c))))
         (received (con (run sched (start c)))).
Proof.
  intros Hq. apply (run_delivered sched (start c)).
  unfold delivered. cbn [start con history]. rewrite Hq. simpl.
  induction (received c); [apply subseq_nil|now apply subseq_skip].
Qed.

(** ** How a [wait_frame] ends *)





(** ** A failed [open] *)

(** X10.  [SocketConnection.open] clears the stop request before it tries
    to start the thread, so a failed [open] cancels a [close]: on a stream
    connection whose receive thread is at its loop test, [close] followed
    by [open] leaves the connection closed but the loop running, and the
    next frame is read and queued; without the [open] the thread returns
    and reads nothing. *)
Theorem failed_open_cancels_stop (s : sys) (f : bytes) :
  kind (con s) = Stream -> main s = Ready -> rxthread (con s) = AtWhile ->
  let kept := run [Call Close; Call Open; RxWhile; RxRecv (RecvData (Some f))] s in
  let ended := run [Call Close; RxWhile; RxRecv (RecvData (Some f))] s in
  opened (con kept) = false /\ exit_requested (con kept) = false /\
  rxthread (con kept) = AtWhile /\
  rxqueue (con kept) = rxqueue (con s) ++ [f] /\
  opened (con ended) = false /\ exit_requested (con ended) = true /\
  rxthread (con ended) = Finished /\
  rxqueue (con ended) = rxqueue (con s).
Proof.
  intros Hk Hm Ht kept ended. unfold kept, ended.
  destruct s as [[k q x o th b cs] m h]. simpl in Hk, Hm, Ht. subst k m th.
  repeat split; reflexivity.
Qed.

(** ** From [open] to the first frame *)


End Connections.

Arguments ARequest {Request Response} r.
Arguments AResponse {Request Response} r.
Arguments ABytes {Request Response} b.
Arguments Open {Request Response}.
Arguments Close {Request Response}.
Arguments Send {Request Response} obj.
Arguments WaitFrame {Request Response} timeout exception.
Arguments EmptyRxqueue {Request Response}.
Arguments IsOpen {Request Response}.
Arguments SendOther {Request Response} o.
Arguments WaitFrameNegative {Request Response} timeout exception.
Arguments Call {Request Response} a.
Arguments Resume {Request Response}.
Arguments Tick {Request Response}.
Arguments RxWhile {Request Response}.
Arguments RxRecv {Request Response} r.
Arguments start {Request Response} c.
Arguments con {Request Response} s.
Arguments main {Request Response} s.
Arguments history {Request Response} s.

Arguments step {Request Response} Request_get_payload Response_get_payload e s.
Arguments run {Request Response} Request_get_payload Response_get_payload sched s.
Arguments listening {Request Response} Request_get_payload Response_get_payload.
Arguments two_frames {Request Response}.

(** * Runs of the machine

    The requests and responses of these runs are known by their payloads:
    [get_payload] is [payload]. *)

Lemma two_frames_history :
  history (run payload payload two_frames (start opened_stream)) =
  [(WaitFrame 3 true, Return (VBytes frame1));
   (WaitFrame 0 false, Return (VBytes frame2))].
Proof. reflexivity. Qed.

Lemma wait_frame_fifo_witness :
  opened opened_stream = true /\ rxqueue opened_stream = [] /\
  received opened_stream = [] /\
  forallb (only_waits bytes bytes) two_frames = true /\
  received (con (run payload payload two_frames (start opened_stream))) =
    [frame1; frame2] /\
  map snd (history (run payload payload two_frames (start opened_stream))) =
    [Return (VBytes frame1); Return (VBytes frame2)].
Proof.
  repeat (split; [reflexivity|]).
  destruct (wait_frame_fifo bytes bytes payload payload [frame1; frame2]
              two_frames opened_stream eq_refl eq_refl eq_refl eq_refl eq_refl)
    as (A & _).
  apply A; [reflexivity|].
  intros t ex Hin. rewrite two_frames_history in Hin.
  destruct Hin as [H|[H|[]]]; destruct ex; discriminate H.
Defined.

(** Nothing arrives: the call made with a timeout of two time units raises
    [TimeoutException] once they have passed. *)
Lemma wait_frame_times_out_witness :
  let s := start opened_stream in
  let idle := [RxWhile; Tick; RxRecv RecvTimeout; Tick] in
  main s = Ready /\ opened (con s) = true /\ rxqueue (con s) = [] /\
  forallb (no_call bytes bytes) idle = true /\
  forallb (no_frame bytes bytes) idle = true /\
  2 <= ticks bytes bytes idle /\
  history (run payload payload (Call (WaitFrame 2 true) :: idle ++ [Resume]) s) =
    [(WaitFrame 2 true,
      Raise (TimeoutException "Did not received frame in time" 2))] /\
  opened (con (run payload payload (Call (WaitFrame 2 true) :: idle ++ [Resume]) s))
    = true.
Proof.
  intros s idle.
  do 5 (split; [reflexivity|]). split; [apply le_n|].
  destruct (wait_frame_times_out bytes bytes payload payload s 2 true idle
              eq_refl eq_refl eq_refl eq_refl eq_refl)
    as (_ & W & _ & _ & O & _).
  split; [|exact O]. apply W. apply le_n.
Defined.

(** C3, as stated, fails: on a connection that was never opened, and on one
    that was opened and closed, [send] returns normally and the payload has
    gone to the transport. *)
Lemma send_when_not_open_counterexample :
  let never := start SocketConnection_init in
  let closed := run payload payload [Call Open; Call Close] never in
  let p := ABytes [x10; x03] in
  opened (con never) = false /\ opened (con closed) = false /\
  history (step payload payload (Call (Send p)) never) =
    [(Send p, Return VNone)] /\
  calls (con (step payload payload (Call (Send p)) never)) =
    [Settimeout; SendCall [x10; x03]] /\
  calls (con (step payload payload (Call (Send p)) closed)) =
    calls (con closed) ++ [SendCall [x10; x03]].
Proof. repeat split. Qed.

Lemma not_open_contract_witness :
  let never := start SocketConnection_init in
  main never = Ready /\ opened (con never) = false /\
  history (step payload payload (Call (WaitFrame 2 true)) never) =
    [(WaitFrame 2 true, Raise (RuntimeError "Connection is not opened"))] /\
  calls (con (step payload payload (Call (WaitFrame 2 true)) never)) =
    calls (con never).
Proof.
  intros never. do 2 (split; [reflexivity|]).
  destruct (not_open_contract bytes bytes payload payload never 2 true (ABytes [])
              eq_refl eq_refl) as (W & _).
  rewrite W. split; reflexivity.
Defined.

(** C4, as stated, fails: [recv] returns the empty byte string (the peer has
    closed the stream) and the empty datum is queued. *)
Lemma empty_datum_counterexample :
  rxqueue (con (listening payload payload)) = [] /\
  rxqueue (con (step payload payload (RxRecv (RecvData (Some []))) (listening payload payload))) = [[]].
Proof. split; reflexivity. Qed.

Lemma rxthread_task_pushes_witness :
  rxthread (con (listening payload payload)) = InRecv /\
  rxqueue (con (step payload payload (RxRecv (RecvData (Some frame1))) (listening payload payload))) =
    [frame1] /\
  rxqueue (con (step payload payload (RxRecv (RecvData None)) (listening payload payload))) = [].
Proof.
  split; [reflexivity|]. split.
  - destruct (rxthread_task_pushes bytes bytes payload payload
                (RecvData (Some frame1)) Tick (listening payload payload) eq_refl) as (Q & _).
    rewrite Q. reflexivity.
  - destruct (rxthread_task_pushes bytes bytes payload payload
                (RecvData None) Tick (listening payload payload) eq_refl) as (Q & _).
    rewrite Q. reflexivity.
Defined.


(** One frame was queued when the connection was closed; the second [open]
    raises and the frame is still there. *)
Lemma reopen_raises_witness :
  let lifetime := [RxWhile; RxRecv (RecvData (Some frame1))] in
  let s1 := run payload payload (Call Open :: lifetime)
              (start SocketConnection_init) in
  let s2 := run payload payload [Call Close; Call Open] s1 in
  forallb (no_call bytes bytes) lifetime = true /\
  rxqueue (con s1) = [frame1] /\
  history s2 =
    [(Open, Return VSelf); (Close, Return VNone);
     (Open, Raise (RuntimeError "threads can only be started once"))] /\
  opened (con s2) = false /\ rxqueue (con s2) = rxqueue (con s1).
Proof.
  intros lifetime s1 s2. split; [reflexivity|].
  destruct (reopen_raises bytes bytes payload payload SocketConnection_init lifetime
              eq_refl) as (_ & O & Q).
  split; [vm_compute; reflexivity|].
  split; [vm_compute; reflexivity|].
  split; [exact O|exact Q].
Defined.

(** Two frames are queued when [empty_rxqueue] is called; the [wait_frame]
    that follows times out. *)
Lemma empty_rxqueue_discards_witness :
  let s := run payload payload
             [RxRecv (RecvData (Some frame1)); RxWhile;
              RxRecv (RecvData (Some frame2))] (listening payload payload) in
  let during := [Resume; RxWhile; Resume] in
  let after := [Tick] in
  main s = Ready /\ rxqueue (con s) = [frame1; frame2] /\
  forallb (no_call bytes bytes) during = true /\
  forallb (no_call bytes bytes) after = true /\
  forallb (no_frame bytes bytes) after = true /\
  history
    (run payload payload (Call (WaitFrame 1 false) :: after ++ [Resume])
       (run payload payload (Call EmptyRxqueue :: during) s)) =
  history s ++ [(EmptyRxqueue, Return VNone); (WaitFrame 1 false, Return VNone)].
Proof.
  intros s during after. do 5 (split; [reflexivity|]).
  destruct (empty_rxqueue_discards bytes bytes payload payload s during after 1 false
              eq_refl eq_refl eq_refl eq_refl) as (_ & _ & D).
  destruct (D eq_refl) as (R & W).
  destruct (W (R (le_n 2))) as (_ & W').
  apply W'; [reflexivity|apply le_n].
Defined.

(** C8, as stated, fails: after the failed read the caller calls [open]
    again.  The call raises, but it has cleared the stop request first, so
    the loop goes on: the next frame is read and queued. *)
Lemma open_after_error_counterexample :
  let s := listening payload payload in
  let s1 := step payload payload (RxRecv RecvError) s in
  let s2 := run payload payload
              [Call Open; RxWhile; RxRecv (RecvData (Some frame2))] s1 in
  rxthread (con s) = InRecv /\ exit_requested (con s1) = true /\
  history s2 =
    history s1 ++ [(Open, Raise (RuntimeError "threads can only be started once"))] /\
  exit_requested (con s2) = false /\ rxthread (con s2) = AtWhile /\
  reads (con s2) = reads (con s1) ++ [RecvCall (RecvData (Some frame2))] /\
  received (con s2) = received (con s1) ++ [frame2] /\
  rxqueue (con s2) = rxqueue (con s1) ++ [frame2].
Proof. repeat split. Qed.

(** The read fails while one frame is queued: the next call returns it, the
    one after times out, and the thread has returned. *)
Lemma receive_error_stops_witness :
  let s := run payload payload [RxRecv (RecvData (Some frame1)); RxWhile] (listening payload payload) in
  let sched := [RxWhile; Call (WaitFrame 0 false); RxWhile; Call (WaitFrame 0 false)] in
  let s2 := run payload payload sched (step payload payload (RxRecv RecvError) s) in
  rxthread (con s) = InRecv /\
  forallb (no_open bytes bytes) sched = true /\
  rxthread (con s2) = Finished /\ is_open (con s2) = true /\
  history s2 =
    history s ++ [(WaitFrame 0 false, Return (VBytes frame1));
                  (WaitFrame 0 false, Return VNone)].
Proof.
  intros s sched s2. do 2 (split; [reflexivity|]).
  destruct (receive_error_stops bytes bytes payload payload s sched eq_refl)
    as (_ & S & W & _).
  destruct (S eq_refl) as (_ & F & _).
  split; [apply F; now left|]. split; reflexivity.
Defined.

(** C9, as stated, fails: on an open connection, [wait_frame] called with
    the timeout -1 and without [exception] raises [ValueError], with the
    queue empty and with a frame queued, which stays queued. *)
Lemma negative_timeout_counterexample :
  let s := start opened_stream in
  let queued := run payload payload
                  [RxWhile; RxRecv (RecvData (Some frame1))] s in
  opened (con s) = true /\ opened (con queued) = true /\
  rxqueue (con queued) = [frame1] /\
  history (step payload payload (Call (WaitFrameNegative 1 false)) s) =
    [(WaitFrameNegative 1 false,
      Raise (ValueError "'timeout' must be a non-negative number"))] /\
  history (step payload payload (Call (WaitFrameNegative 1 false)) queued) =
    [(WaitFrameNegative 1 false,
      Raise (ValueError "'timeout' must be a non-negative number"))] /\
  rxqueue (con (step payload payload (Call (WaitFrameNegative 1 false)) queued)) =
    [frame1].
Proof. repeat split. Qed.

(** C10, as stated, fails: [send] called with [None], with the integer 16
    and with the text "1003" raises [TypeError] and makes no call on the
    transport. *)
Lemma send_other_counterexample :
  let s := start opened_stream in
  history (step payload payload (Call (SendOther PyNone)) s) =
    [(SendOther PyNone,
      Raise (TypeError "object of type 'NoneType' has no len()"))] /\
  history (step payload payload (Call (SendOther (PyInt 16))) s) =
    [(SendOther (PyInt 16),
      Raise (TypeError "object of type 'int' has no len()"))] /\
  history (step payload payload (Call (SendOther (PyStr "1003"))) s) =
    [(SendOther (PyStr "1003"),
      Raise (TypeError "a bytes-like object is required, not 'str'"))] /\
  calls (con (step payload payload (Call (SendOther PyNone)) s)) = calls (con s) /\
  calls (con (step payload payload (Call (SendOther (PyStr "1003"))) s)) =
    calls (con s) /\
  calls (con (step payload payload (Call (SendOther (PyInt 16))) s)) = calls (con s) /\
  sent (con (step payload payload (Call (SendOther (PyInt 16))) s)) = [].
Proof. repeat split. Qed.

Lemma wait_frame_never_raises_witness :
  let never := start SocketConnection_init in
  let s := start opened_stream in
  history (step payload payload (Call (WaitFrame 2 false)) never) =
    [(WaitFrame 2 false, Return VNone)] /\
  history (run payload payload (Call (WaitFrame 2 false) :: [Tick; Tick] ++ [Resume]) s) =
    [(WaitFrame 2 false, Return VNone)].
Proof.
  intros never s.
  destruct (wait_frame_never_raises bytes bytes payload payload never [] 2 1)
    as (_ & N).
  destruct (wait_frame_never_raises bytes bytes payload payload s [] 2 1)
    as (_ & T).
  destruct (N eq_refl) as (N' & _). destruct (T eq_refl) as (_ & _ & T' & _).
  split.
  - rewrite N'; reflexivity.
  - apply (T' eq_refl eq_refl [Tick; Tick] eq_refl eq_refl (le_n 2)).
Defined.

(** ** Runs for the further properties *)

(** Three [open] calls on one object: one returns. *)
Lemma open_returns_once_witness :
  let sched := [Call Open; Call Close; Call Open; RxWhile; Call Open] in
  opens_returned bytes bytes
    (history (run payload payload sched (start SocketConnection_init))) <= 1 /\
  opens_returned bytes bytes
    (history (run payload payload sched (start opened_stream))) = 0.
Proof.
  intros sched.
  destruct (open_returns_once bytes bytes payload payload SocketConnection_init sched)
    as (_ & A & _).
  destruct (open_returns_once bytes bytes payload payload opened_stream sched)
    as (_ & _ & B).
  split; [exact A|]. apply B. discriminate.
Defined.

(** A connection that was opened, received a frame and was closed. *)
Lemma closed_for_good_witness :
  let s := run payload payload
             [RxRecv (RecvData (Some frame1)); Call Close] (listening payload payload) in
  let sched := [Call Open; Call (WaitFrame 1 false); RxWhile; Call (WaitFrame 0 true)] in
  rxthread (con s) <> Unstarted /\ opened (con s) = false /\ main s = Ready /\
  rxqueue (con s) = [frame1] /\
  opened (con (run payload payload sched s)) = false.
Proof.
  intros s sched.
  assert (Ht : rxthread (con s) <> Unstarted) by discriminate.
  split; [exact Ht|]. do 3 (split; [reflexivity|]).
  exact (proj1 (closed_for_good bytes bytes payload payload s sched Ht eq_refl
                  (or_introl eq_refl))).
Defined.

(** A [with] statement on a connection that is not opened first. *)
Lemma never_opened_witness :
  let body := [Call (WaitFrame 1 true); RxWhile; RxRecv (RecvData (Some frame1));
               Call (Send (ABytes frame2)); Call (WaitFrame 0 false)] in
  rxthread SocketConnection_init = Unstarted /\
  opened SocketConnection_init = false /\
  forallb (no_open bytes bytes) body = true /\
  received (con (run payload payload body (start SocketConnection_init))) = [] /\
  returned_frames bytes bytes
    (history (run payload payload (with_block bytes bytes body)
                (start SocketConnection_init))) = [].
Proof.
  intros body. do 3 (split; [reflexivity|]).
  destruct (never_opened bytes bytes payload payload SocketConnection_init body
              eq_refl eq_refl eq_refl)
    as ((_ & _ & _ & D & _) & (_ & _ & _ & F) & _).
  split; [exact D|exact F].
Defined.

(** Two payloads, the first one given as a request. *)
Lemma sends_in_order_witness :
  let s := start opened_stream in
  main s = Ready /\
  sent (con (run payload payload
               (map (fun o => Call (Send o)) [ARequest frame1; ABytes frame2]) s)) =
    sent (con s) ++ [frame1; frame2].
Proof.
  intros s. split; [reflexivity|].
  destruct (sends_in_order bytes bytes payload payload s []
              [ARequest frame1; ABytes frame2]) as (_ & S).
  exact (proj2 (S eq_refl)).
Defined.

(** [close] while the thread is at its loop test. *)
Lemma close_winds_down_witness :
  let s := run payload payload
             [RxRecv (RecvData (Some frame1))] (listening payload payload) in
  let quiet_sched := [RxWhile; RxRecv (RecvData (Some frame2)); Tick] in
  main s = Ready /\ forallb (no_open bytes bytes) quiet_sched = true /\
  rxthread (con s) = AtWhile /\
  rxthread (con (run payload payload quiet_sched
                   (step payload payload (Call Close) s))) = Finished /\
  received (con (run payload payload quiet_sched
                   (step payload payload (Call Close) s))) = received (con s).
Proof.
  intros s quiet_sched. do 3 (split; [reflexivity|]).
  destruct (close_winds_down bytes bytes payload payload s quiet_sched
              eq_refl eq_refl) as (_ & _ & _ & _ & W).
  apply W; [reflexivity|now left].
Defined.

(** A run in which one of three frames is discarded by [empty_rxqueue]. *)
Lemma frames_come_from_transport_witness :
  let sched := [Call Open; RxWhile; RxRecv (RecvData (Some frame1));
                Call (WaitFrame 0 false); RxWhile; RxRecv (RecvData (Some frame2));
                Call EmptyRxqueue; RxWhile; RxRecv (RecvData (Some frame1));
                Resume] in
  rxqueue SocketConnection_init = [] /\
  subseq
    (returned_frames bytes bytes
       (history (run payload payload sched (start SocketConnection_init))) ++
     rxqueue (con (run payload payload sched (start SocketConnection_init))))
    (received (con (run payload payload sched (start SocketConnection_init)))).
Proof.
  intros sched. split; [reflexivity|].
  exact (frames_come_from_transport bytes bytes payload payload
           SocketConnection_init sched eq_refl).
Defined.


(** [close] and [open] on a connection that has just been opened. *)
Lemma failed_open_cancels_stop_witness :
  let s := start opened_stream in
  kind (con s) = Stream /\ main s = Ready /\ rxthread (con s) = AtWhile /\
  rxqueue (con (run payload payload
                  [Call Close; Call Open; RxWhile; RxRecv (RecvData (Some frame1))] s)) =
    rxqueue (con s) ++ [frame1] /\
  rxthread (con (run payload payload
                   [Call Close; RxWhile; RxRecv (RecvData (Some frame1))] s)) =
    Finished.
Proof.
  intros s. do 3 (split; [reflexivity|]).
  destruct (failed_open_cancels_stop bytes bytes payload payload s frame1
              eq_refl eq_refl eq_refl) as (_ & _ & _ & Q & _ & _ & F & _).
  split; [exact Q|exact F].
Defined.

(** [opened] after an [open], a [close] and a failed [open]. *)
Lemma opened_follows_calls_witness :
  let sched := [Call Open; RxWhile; Call Close; Call Open] in
  exists h,
    history (run payload payload sched (start SocketConnection_init)) = [] ++ h /\
    opened (con (run payload payload sched (start SocketConnection_init))) =
      lifecycle bytes bytes h false.
Proof.
  intros sched.
  destruct (opened_follows_calls bytes bytes payload payload
              (start SocketConnection_init) sched) as (h & H & L & _).
  exists h. split; [exact H|exact L].
Defined.

